(** * assisted-ui-lib: helpers, alert context and submit handlers

  A shallow embedding of the TypeScript sources
    - cim/components/helpers/conditions.ts      (condition lookup)
    - the agent-location match-expression helpers
    - the alerts context (AlertsContext, AlertsContextProvider, useAlerts)
    - cim/components/Agent/BMCForm.tsx          (getNMState, handleSubmit)
    - ClusterDeploymentDetailsStep              (handleSubmit, handleOnNext)
    - NetworkingStatus
  followed by the properties established about them.

  Conventions: a JavaScript [undefined] (an optional field, an omitted
  argument) is [None]; arrays are lists; objects with a fixed shape are
  records and the props object of a JSX element is a [gmap] from
  property names to values; code that can throw or await a promise that
  can reject runs in the small state-and-exception monad of [Eff]. *)

From stdpp Require Import base option strings pretty list gmap.

(** ** JavaScript values and operators used by the sources *)

Module Js.

(** An [Error] object, or any object that carries a [message]: the
    message is a string. *)
Record Error := { name : string; message : string }.

(** What [throw] can raise and a rejected promise can carry, which is what
    [catch (e)] receives: any value. The values are told apart by what
    reading [e.message] does: it throws on [undefined] and [null], gives
    [undefined] on a value without that property (a string, a number, a
    plain object; kept as its text), and gives the message otherwise. *)
Inductive Thrown : Type :=
| Undefined
| Null
| Other (text : string)
| ErrorObject (e : Error).

(** How the evaluation of an expression (or an awaited promise) ends. *)
Inductive completion (A : Type) : Type :=
| Normal (a : A)
| Throw (e : Thrown).
Global Arguments Normal {A} a.
Global Arguments Throw {A} e.

(** The [TypeError] of a property read on [undefined] or [null] (worded
    as V8 words it). *)
Definition cannot_read (property target : string) : Thrown :=
  ErrorObject
    {| name := "TypeError";
       message := "Cannot read properties of " +:+ target
                  +:+ " (reading '" +:+ property +:+ "')" |}.

(** [e.message] *)
Definition read_message (e : Thrown) : completion (option string) :=
  match e with
  | Undefined => Throw (cannot_read "message" "undefined")
  | Null => Throw (cannot_read "message" "null")
  | Other _ => Normal None
  | ErrorObject e => Normal (Some (message e))
  end.

(** Truthiness of a number: only [0] is falsy (lengths are never NaN). *)
Definition truthy_number (n : nat) : bool :=
  match n with
  | O => false
  | S _ => true
  end.

(** [a && b] on numbers: the left operand when it is falsy, else the right. *)
Definition and_number (a b : nat) : nat :=
  if truthy_number a then b else a.

(** Truthiness of a value that is a string or [undefined]. *)
Definition truthy_string (s : option string) : bool :=
  match s with
  | None => false
  | Some s => truthy_number (String.length s)
  end.

(** String conversion inside a template literal, [`${x}`]. *)
Definition template (x : option string) : string :=
  match x with
  | None => "undefined"
  | Some s => s
  end.

(** [Array.prototype.find]: the first element satisfying the callback. *)
Fixpoint find {A : Type} (p : A → bool) (l : list A) : option A :=
  match l with
  | [] => None
  | x :: l' => if p x then Some x else find p l'
  end.

(** [Array.prototype.filter] with a callback whose result is a number. *)
Fixpoint filter {A : Type} (p : A → nat) (l : list A) : list A :=
  match l with
  | [] => []
  | x :: l' => if truthy_number (p x) then x :: filter p l' else filter p l'
  end.

(** [s === t] on strings. *)
Definition strict_eq (s t : string) : bool := bool_decide (s = t).

End Js.

(** ** A state-and-exception monad for handlers

  [M S A] is a computation over a store [S] that either returns an [A] or
  throws; the store keeps the effects made before a throw, as in
  JavaScript. [await] of a settled promise returns its value or rethrows
  its rejection reason. *)

Module Eff.

Definition M (S A : Type) : Type := S → Js.completion A * S.

Definition ret {S A} (a : A) : M S A := λ s, (Js.Normal a, s).

Definition bind {S A B} (m : M S A) (k : A → M S B) : M S B :=
  λ s, match m s with
       | (Js.Normal a, s') => k a s'
       | (Js.Throw e, s') => (Js.Throw e, s')
       end.

Definition throw {S A} (e : Js.Thrown) : M S A := λ s, (Js.Throw e, s).

(** [await p] / evaluation of an expression whose completion is known. *)
Definition await {S A} (c : Js.completion A) : M S A := λ s, (c, s).

Definition modify {S} (f : S → S) : M S unit := λ s, (Js.Normal tt, f s).

(** [try { body } catch (e) { handler e }] *)
Definition try_catch {S A} (body : M S A) (handler : Js.Thrown → M S A) : M S A :=
  λ s, match body s with
       | (Js.Normal a, s') => (Js.Normal a, s')
       | (Js.Throw e, s') => handler e s'
       end.

(** The store left by running a computation. *)
Definition exec {S A} (m : M S A) (s : S) : S := snd (m s).

End Eff.

(** [x ← m; k] and [m;; k] are stdpp's monadic notations at [Eff.M S]. *)
Global Instance eff_ret {S} : MRet (Eff.M S) := λ A, @Eff.ret S A.
Global Instance eff_bind {S} : MBind (Eff.M S) := λ A B k m, Eff.bind m k.

(** ** Kubernetes object metadata (the fields read here) *)

Module K8s.
Record ObjectMeta := { name : option string; namespace : option string }.
End K8s.

(** ** helpers/conditions.ts *)

Module Conditions.
Section Conditions.

(** [StatusCondition] is declared in [../../types]; the lookups read only
    its [type] field, so the condition type and that projection are
    parameters. *)
Context {StatusCondition : Type} (type : StatusCondition → string).

(** [status?: { conditions?: StatusCondition[] }] of both resource kinds. *)
Record ResourceStatus := { conditions : option (list StatusCondition) }.

Record AgentClusterInstallK8sResource :=
  { aci_metadata : option K8s.ObjectMeta;
    aci_status : option ResourceStatus }.

Record AgentK8sResource :=
  { agent_metadata : option K8s.ObjectMeta;
    agent_status : option ResourceStatus }.

(** [(c) => c.type === 'Validated'] *)
Definition isValidated (c : StatusCondition) : bool :=
  Js.strict_eq (type c) "Validated".

(** [resource.status?.conditions?.find((c) => c.type === 'Validated')] *)
Definition getClusterValidatedCondition
    (resource : AgentClusterInstallK8sResource) : option StatusCondition :=
  match aci_status resource with
  | None => None
  | Some st =>
      match conditions st with
      | None => None
      | Some cs => Js.find isValidated cs
      end
  end.

Definition getAgentValidatedCondition
    (agentClusterInstall : AgentK8sResource) : option StatusCondition :=
  match agent_status agentClusterInstall with
  | None => None
  | Some st =>
      match conditions st with
      | None => None
      | Some cs => Js.find isValidated cs
      end
  end.

End Conditions.
Global Arguments ResourceStatus : clear implicits.
Global Arguments AgentClusterInstallK8sResource : clear implicits.
Global Arguments AgentK8sResource : clear implicits.
End Conditions.

(** ** Agent-location match expressions *)

Module Locations.

(** [MatchExpression] of the console SDK: [values] is optional. *)
Record MatchExpression :=
  { key : string; operator : string; values : option (list string) }.

Section Locations.

(** The label key constant exported by [../common]. *)
Variable AGENT_LOCATION_LABEL_KEY : string.

(** [(expressions: MatchExpression[] = []) =>
       expressions.find((expr) => expr.key === KEY)?.values || []] *)
Definition getLocationsFromMatchExpressions
    (expressions : option (list MatchExpression)) : list string :=
  let expressions := match expressions with None => [] | Some es => es end in
  let found :=
    Js.find (λ expr, Js.strict_eq (key expr) AGENT_LOCATION_LABEL_KEY) expressions in
  let vs := match found with None => None | Some expr => values expr end in
  (* an array, even an empty one, is truthy: [||] falls through only on
     [undefined] *)
  match vs with
  | Some vs => vs
  | None => []
  end.

(** [locations?.length ? [{ key, operator: 'In', values: locations }] : undefined] *)
Definition getAgentLocationMatchExpression
    (locations : option (list string)) : option (list MatchExpression) :=
  match locations with
  | None => None
  | Some ls =>
      if Js.truthy_number (length ls)
      then Some [ {| key := AGENT_LOCATION_LABEL_KEY; operator := "In"; values := Some ls |} ]
      else None
  end.

End Locations.
End Locations.

(** ** The alerts context *)

Module Alerts.
Section Alerts.

(** [AlertProps], [AlertPayload] and [alertsSlice] come from [../reducers];
    the slice's reducer is a parameter and its three action creators are
    the constructors of [AlertsAction]. *)
Context {AlertProps AlertPayload : Type}.

Inductive AlertsAction : Type :=
| addAlertAction (alert : AlertPayload)
| removeAlertAction (alertKey : string)
| clearAlertsAction.

Variable alertsReducer : list AlertProps → AlertsAction → list AlertProps.

(** [AlertsContextType]. An operation has type [(...) => void]; its effect
    is the list of actions it hands to the provider's [dispatch], in order. *)
Record AlertsContextType :=
  { alerts : list AlertProps;
    addAlert : AlertPayload → list AlertsAction;
    removeAlert : string → list AlertsAction;
    clearAlerts : unit → list AlertsAction }.

(** [React.createContext<AlertsContextType>({ alerts: [], addAlert: () => null, ... })]:
    the value a consumer gets when no provider encloses it. A context value
    is an [option] because [useAlerts] compares it with [undefined]. *)
Definition AlertsContext : option AlertsContextType :=
  Some {| alerts := [];
          addAlert := λ _, [];
          removeAlert := λ _, [];
          clearAlerts := λ _, [] |}.

(** The cell of [React.useReducer(alertsReducer, [])]: the state of the
    last render and the actions dispatched since, oldest first. *)
Record ReducerHook :=
  { state : list AlertProps; pending : list AlertsAction }.

(** The cell on mount. *)
Definition useReducer : ReducerHook := {| state := []; pending := [] |}.

(** [dispatchAlertsAction(action)] queues the action. *)
Definition dispatchAlertsAction (action : AlertsAction) (h : ReducerHook) : ReducerHook :=
  {| state := state h; pending := pending h ++ [action] |}.

(** A re-render runs the reducer over the queued actions in order. *)
Definition rerender (h : ReducerHook) : ReducerHook :=
  {| state := fold_left alertsReducer (pending h) (state h); pending := [] |}.

(** The [value] that [AlertsContextProvider] passes to
    [AlertsContext.Provider] when it renders with hook cell [h]. *)
Definition AlertsContextProvider (h : ReducerHook) : AlertsContextType :=
  let alerts := state h in
  let addAlert := λ alert, [addAlertAction alert] in
  let removeAlert := λ alertKey, [removeAlertAction alertKey] in
  let clearAlerts := λ _ : unit, [clearAlertsAction] in
  {| alerts := alerts; addAlert := addAlert;
     removeAlert := removeAlert; clearAlerts := clearAlerts |}.

(** What can happen to a mounted provider: a consumer calls one of the
    operations of the context value, or React re-renders the provider. *)
Inductive ProviderEvent : Type :=
| CallAddAlert (alert : AlertPayload)
| CallRemoveAlert (alertKey : string)
| CallClearAlerts
| Render.

(** The actions an event hands to [dispatch], through the context value. *)
Definition dispatched (h : ReducerHook) (ev : ProviderEvent) : list AlertsAction :=
  match ev with
  | CallAddAlert alert => addAlert (AlertsContextProvider h) alert
  | CallRemoveAlert alertKey => removeAlert (AlertsContextProvider h) alertKey
  | CallClearAlerts => clearAlerts (AlertsContextProvider h) tt
  | Render => []
  end.

Definition provider_step (h : ReducerHook) (ev : ProviderEvent) : ReducerHook :=
  match ev with
  | Render => rerender h
  | _ => fold_left (λ h a, dispatchAlertsAction a h) (dispatched h ev) h
  end.

Definition provider_run (evs : list ProviderEvent) : ReducerHook :=
  fold_left provider_step evs useReducer.

(** The action of [alertsSlice.actions] that corresponds to an operation
    (the specification side of the passthrough). *)
Definition corresponding_action (ev : ProviderEvent) : list AlertsAction :=
  match ev with
  | CallAddAlert alert => [addAlertAction alert]
  | CallRemoveAlert alertKey => [removeAlertAction alertKey]
  | CallClearAlerts => [clearAlertsAction]
  | Render => []
  end.

(** [React.useContext(AlertsContext)] in a component whose enclosing
    [AlertsContextProvider]s have the hook cells [ancestors], nearest
    first: the nearest provider's value, or the context's default. *)
Definition useContext (ancestors : list ReducerHook) : option AlertsContextType :=
  match ancestors with
  | [] => AlertsContext
  | h :: _ => Some (AlertsContextProvider h)
  end.

Definition useAlerts (ancestors : list ReducerHook) : Js.completion AlertsContextType :=
  match useContext ancestors with
  | None =>
      Js.Throw
        (Js.ErrorObject
           {| Js.name := "Error";
              Js.message := "useAlerts must be used within AlertsContextProvider" |})
  | Some context => Js.Normal context
  end.

End Alerts.
Global Arguments AlertsAction : clear implicits.
Global Arguments AlertsContextType : clear implicits.
Global Arguments ReducerHook : clear implicits.
Global Arguments ProviderEvent : clear implicits.
End Alerts.

(** ** cim/components/Agent/BMCForm.tsx *)

Module BMCForm.

(** An entry of [values.macMapping]. *)
Record MacMappingEntry := { macAddress : string; name : string }.

(** [AddBmcValues], with the fields of [emptyValues]. *)
Record AddBmcValues :=
  { hostname : string;
    bmcAddress : string;
    username : string;
    password : string;
    bootMACAddress : string;
    disableCertificateVerification : bool;
    online : bool;
    nmState : string;
    macMapping : list MacMappingEntry }.

Definition emptyValues : AddBmcValues :=
  {| hostname := ""; bmcAddress := ""; username := ""; password := "";
     bootMACAddress := ""; disableCertificateVerification := true;
     online := false; nmState := "";
     macMapping := [ {| macAddress := ""; name := "" |} ] |}.

(** [InfraEnvK8sResource]: only [metadata?.name] and [metadata?.namespace]
    are read. *)
Record InfraEnvK8sResource := { infraEnv_metadata : option K8s.ObjectMeta }.

(** [infraEnv.metadata?.name] and [infraEnv.metadata?.namespace] *)
Definition infraEnv_name (infraEnv : InfraEnvK8sResource) : option string :=
  match infraEnv_metadata infraEnv with
  | None => None
  | Some m => K8s.name m
  end.

Definition infraEnv_namespace (infraEnv : InfraEnvK8sResource) : option string :=
  match infraEnv_metadata infraEnv with
  | None => None
  | Some m => K8s.namespace m
  end.

(** The [Alert] element rendered under the form. *)
Inductive AlertVariant := success | danger | warning | info | default_variant.

Record AlertElement :=
  { title : string; variant : AlertVariant; isInline : bool; children : string }.

Section BMCForm.

(** [yaml.load] of js-yaml: the parsed document, or a thrown
    [YAMLException]. The library and the type of documents are parameters. *)
Context {YamlDoc : Type}.
Variable yaml_load : string → Js.completion YamlDoc.

(** The object literal built by [getNMState]. *)
Record NMStateLabels := { labels_infraEnv : option string; labels_bmcMAC : string }.

Record NMStateMetadata :=
  { generateName : string; namespace : option string; labels : NMStateLabels }.

Record NMStateSpec := { config : YamlDoc; interfaces : list MacMappingEntry }.

Record NMStateConfig :=
  { apiVersion : string; kind : string;
    metadata : NMStateMetadata; spec : NMStateSpec }.

(** [const getNMState = (values, infraEnv) => { ... }] *)
Definition getNMState (values : AddBmcValues) (infraEnv : InfraEnvK8sResource)
    : Js.completion NMStateConfig :=
  match yaml_load (nmState values) with
  | Js.Throw e => Js.Throw e
  | Js.Normal config =>
      let nmState :=
        {| apiVersion := "agent-install.openshift.io/v1beta1";
           kind := "NMStateConfig";
           metadata :=
             {| generateName := Js.template (infraEnv_name infraEnv) +:+ "-";
                namespace := infraEnv_namespace infraEnv;
                labels := {| labels_infraEnv := infraEnv_name infraEnv;
                             labels_bmcMAC := bmcAddress values |} |};
           spec :=
             {| config := config;
                interfaces :=
                  Js.filter
                    (λ m, Js.and_number (String.length (macAddress m))
                                        (String.length (name m)))
                    (macMapping values) |} |} in
      Js.Normal nmState
  end.

(** The calls a submission makes on the callbacks passed as props. *)
Inductive Call : Type :=
| OnCreate (values : AddBmcValues) (nmState : option NMStateConfig)
| OnClose.

(** The component's store: the [error] cell of [React.useState()] and the
    calls made so far, oldest first. *)
Record State := { error : option string; calls : list Call }.

(** The props of [BMCForm]: [onCreate] returns a promise, given here by
    how it settles; [onClose] returns or throws. *)
Variable onCreate : AddBmcValues → option NMStateConfig → Js.completion unit.
Variable onClose : unit → Js.completion unit.
Variable hasDHCP : bool.
Variable infraEnv : InfraEnvK8sResource.

Definition setError (e : option string) : Eff.M State unit :=
  Eff.modify (λ s, {| error := e; calls := calls s |}).

(** Calling a callback records the call, then completes as the callback does. *)
Definition invoke (c : Call) (outcome : Js.completion unit) : Eff.M State unit :=
  Eff.modify (λ s, {| error := error s; calls := calls s ++ [c] |});;
  Eff.await outcome.

(** [hasDHCP ? undefined : getNMState(values, infraEnv)] *)
Definition nmStateArgument (values : AddBmcValues) : Js.completion (option NMStateConfig) :=
  if hasDHCP then Js.Normal None
  else match getNMState values infraEnv with
       | Js.Normal nm => Js.Normal (Some nm)
       | Js.Throw e => Js.Throw e
       end.

(** [const handleSubmit = async (values) => { try { ... } catch (e) { ... } }] *)
Definition handleSubmit (values : AddBmcValues) : Eff.M State unit :=
  Eff.try_catch
    (setError None;;
     nmState ← Eff.await (nmStateArgument values);
     invoke (OnCreate values nmState) (onCreate values nmState);;
     invoke OnClose (onClose tt))
    (λ e, message ← Eff.await (Js.read_message e); setError message).

(** [{error && (<Alert title="Failed to add host" variant={AlertVariant.danger}
      isInline ...>{error}</Alert>)}] *)
Definition errorAlert (error : option string) : option AlertElement :=
  if Js.truthy_string error
  then match error with
       | Some msg =>
           Some {| title := "Failed to add host"; variant := danger;
                   isInline := true; children := msg |}
       | None => None
       end
  else None.

(** How often a submission called [onCreate] and [onClose]. *)
Definition isOnCreate (c : Call) : bool :=
  match c with OnCreate _ _ => true | OnClose => false end.

Definition isOnClose (c : Call) : bool :=
  match c with OnCreate _ _ => false | OnClose => true end.

Definition count (p : Call → bool) (cs : list Call) : nat :=
  length (List.filter p cs).

(** The calls a handler adds when run from store [s]. *)
Definition new_calls (m : Eff.M State unit) (s : State) : list Call :=
  drop (length (calls s)) (calls (Eff.exec m s)).

End BMCForm.
Global Arguments NMStateConfig : clear implicits.
Global Arguments NMStateSpec : clear implicits.
Global Arguments Call : clear implicits.
Global Arguments State : clear implicits.
End BMCForm.

(** ** ClusterDeploymentDetailsStep *)

Module DetailsStep.

(** The payload of [addAlert({ title, message: error })]: the message is
    the caught value itself. *)
Record AlertPayload := { title : string; message : Js.Thrown }.

Section DetailsStep.

(** The form values; their shape plays no role in the handlers. *)
Context {ClusterDeploymentDetailsValues : Type}.

(** What the handlers do to the outside: the [onSaveDetails] prop,
    [setCurrentStepId] of the wizard context and [addAlert] of the alerts
    context. *)
Inductive Call : Type :=
| OnSaveDetails (values : ClusterDeploymentDetailsValues)
| SetCurrentStepId (stepId : string)
| AddAlert (alert : AlertPayload).

(** The wizard's current step and the calls made so far, oldest first. *)
Record State := { currentStepId : string; calls : list Call }.

(** [onSaveDetails] returns a promise, given by how it settles. [validate]
    stands for Formik running the validation schema: [submitForm] calls
    [onSubmit] only when validation reports no error. *)
Variable onSaveDetails : ClusterDeploymentDetailsValues → Js.completion unit.
Variable validate : ClusterDeploymentDetailsValues → bool.

Definition record (c : Call) : Eff.M State unit :=
  Eff.modify (λ s, {| currentStepId := currentStepId s; calls := calls s ++ [c] |}).

Definition setCurrentStepId (stepId : string) : Eff.M State unit :=
  Eff.modify (λ s, {| currentStepId := stepId;
                      calls := calls s ++ [SetCurrentStepId stepId] |}).

Definition addAlert (alert : AlertPayload) : Eff.M State unit :=
  record (AddAlert alert).

(** [const next = () => setCurrentStepId('hosts-selection')] *)
Definition next : Eff.M State unit := setCurrentStepId "hosts-selection".

(** [const handleSubmit = async (values) => { try { await onSaveDetails(values);
      next(); } catch (error) { addAlert({ ... }) } }] *)
Definition handleSubmit (values : ClusterDeploymentDetailsValues) : Eff.M State unit :=
  Eff.try_catch
    (record (OnSaveDetails values);;
     Eff.await (onSaveDetails values);;
     next)
    (λ error, addAlert {| title := "Failed to save ClusterDeployment";
                          message := error |}).

(** Formik's [submitForm] with [onSubmit={handleSubmit}]. *)
Definition submitForm (values : ClusterDeploymentDetailsValues) : Eff.M State unit :=
  if validate values then handleSubmit values else mret tt.

(** [const handleOnNext = () => { if (dirty) { submitForm(); } else { next(); } }] *)
Definition handleOnNext (dirty : bool) (values : ClusterDeploymentDetailsValues)
    : Eff.M State unit :=
  if dirty then submitForm values else next.

(** The calls a handler adds when run from store [s]. *)
Definition new_calls (m : Eff.M State unit) (s : State) : list Call :=
  drop (length (calls s)) (calls (Eff.exec m s)).

End DetailsStep.
Global Arguments Call : clear implicits.
Global Arguments State : clear implicits.
End DetailsStep.

(** ** NetworkingStatus *)

Module NetworkingStatus.
Section NetworkingStatus.

(** [Cluster] and [Host] of the API, the entries of a [ValidationsInfo]
    object and the [onEditHostname] callback are opaque here. *)
Context {Cluster Host Validations Callback : Type}.

(** Values of the properties of a props object. *)
Inductive PropValue : Type :=
| VUndefined
| VString (s : string)
| VCluster (c : Cluster)
| VHost (h : Host)
| VValidationsInfo (v : gmap string Validations)
| VCallback (f : Callback)
| VAdditionalNTPSourcesDialogToggle (cluster : PropValue).

(** A rendered element: the component and its props object. *)
Record Element := { component : string; props : gmap string PropValue }.

(** Reading a property of an object: [undefined] when it is absent. *)
Definition get (k : string) (o : gmap string PropValue) : PropValue :=
  match o !! k with
  | Some v => v
  | None => VUndefined
  end.

(** [HostNetworkingStatusComponentProps] and the object that carries them. *)
Record HostNetworkingStatusComponentProps :=
  { cluster : Cluster;
    host : Host;
    validationsInfo : gmap string Validations;
    onEditHostname : option Callback }.

Definition props_object (p : HostNetworkingStatusComponentProps) : gmap string PropValue :=
  let o : gmap string PropValue :=
    <["validationsInfo" := VValidationsInfo (validationsInfo p)]>
      (<["host" := VHost (host p)]>
         (<["cluster" := VCluster (cluster p)]> ∅)) in
  match onEditHostname p with
  | Some f => <["onEditHostname" := VCallback f]> o
  | None => o
  end.

(** [const NetworkingStatus = ({ cluster, ...props }) => { ...
      return <HostStatus {...props} statusOverride={networkingStatus}
               validationsInfo={validationsInfo} sublabel={sublabel}
               AdditionalNTPSourcesDialogToggleComponent={...} />; }]
    Attributes after the spread overwrite the spread's properties. *)
Definition NetworkingStatus (allProps : gmap string PropValue) : Element :=
  let cluster := get "cluster" allProps in
  let props := delete "cluster" allProps in
  let networkingStatus := VString "discovering" in
  let validationsInfo := VValidationsInfo ∅ in
  let sublabel := VUndefined in
  let AdditionalNTPSourcesDialogToggleWithCluster :=
    VAdditionalNTPSourcesDialogToggle cluster in
  {| component := "HostStatus";
     props :=
       <["AdditionalNTPSourcesDialogToggleComponent" :=
           AdditionalNTPSourcesDialogToggleWithCluster]>
         (<["sublabel" := sublabel]>
            (<["validationsInfo" := validationsInfo]>
               (<["statusOverride" := networkingStatus]> props))) |}.

End NetworkingStatus.
Global Arguments PropValue : clear implicits.
Global Arguments Element : clear implicits.
Global Arguments HostNetworkingStatusComponentProps : clear implicits.
End NetworkingStatus.

(** ** BMCForm.tsx: the MAC-to-interface grid of [MacMapping]

    The grid that the [FieldArray] render prop draws from [field.value]:
    two inputs per entry, a remove icon on every row but the first, and
    the "Add more" button. ([FormGroup]'s validation state and the inputs'
    [inputError] are display only and are not part of it.) *)

Module MacMapping.

(** A row: the [name] of its two [InputField]s and, when the row has a
    [MinusCircleIcon], the index its [onClick] passes to [remove]. *)
Record Row :=
  { macAddressField : string; nameField : string; removeIcon : option nat }.

(** The grid: its rows and the entry that "Add more" passes to [push]. *)
Record Grid := { rows : list Row; addMore : BMCForm.MacMappingEntry }.

(** [field.value.map((mac, index) => ...)] and the button below it. *)
Definition grid (value : list BMCForm.MacMappingEntry) : Grid :=
  {| rows :=
       imap (λ index _,
               {| macAddressField := "macMapping[" +:+ pretty index +:+ "].macAddress";
                  nameField := "macMapping[" +:+ pretty index +:+ "].name";
                  removeIcon := if bool_decide (index ≠ 0) then Some index else None |})
            value;
     addMore := {| BMCForm.macAddress := ""; BMCForm.name := "" |} |}.

(** Formik's [FieldArray] helpers: [push] appends, [remove] deletes the
    element at an index (nothing when there is none). *)
Definition push (obj : BMCForm.MacMappingEntry)
    (value : list BMCForm.MacMappingEntry) : list BMCForm.MacMappingEntry :=
  value ++ [obj].

Definition remove (index : nat)
    (value : list BMCForm.MacMappingEntry) : list BMCForm.MacMappingEntry :=
  delete index value.

(** What the user can do to the grid: click the icon of a row, click
    "Add more", or type into one of the inputs of a row. *)
Inductive Event : Type :=
| ClickRemove (row : nat)
| ClickAddMore
| TypeMacAddress (row : nat) (text : string)
| TypeName (row : nat) (text : string).

(** The new [macMapping] after an event. A click on a row without an icon
    (or on no row) has nothing to run. *)
Definition handle (value : list BMCForm.MacMappingEntry) (ev : Event)
    : list BMCForm.MacMappingEntry :=
  match ev with
  | ClickRemove row =>
      match rows (grid value) !! row with
      | Some r =>
          match removeIcon r with
          | Some index => remove index value
          | None => value
          end
      | None => value
      end
  | ClickAddMore => push (addMore (grid value)) value
  | TypeMacAddress row text =>
      alter (λ m, {| BMCForm.macAddress := text; BMCForm.name := BMCForm.name m |})
            row value
  | TypeName row text =>
      alter (λ m, {| BMCForm.macAddress := BMCForm.macAddress m; BMCForm.name := text |})
            row value
  end.

(** The form values after an event of the grid. *)
Definition with_mapping (values : BMCForm.AddBmcValues)
    (mapping : list BMCForm.MacMappingEntry) : BMCForm.AddBmcValues :=
  {| BMCForm.hostname := BMCForm.hostname values;
     BMCForm.bmcAddress := BMCForm.bmcAddress values;
     BMCForm.username := BMCForm.username values;
     BMCForm.password := BMCForm.password values;
     BMCForm.bootMACAddress := BMCForm.bootMACAddress values;
     BMCForm.disableCertificateVerification :=
       BMCForm.disableCertificateVerification values;
     BMCForm.online := BMCForm.online values;
     BMCForm.nmState := BMCForm.nmState values;
     BMCForm.macMapping := mapping |}.

End MacMapping.

(** ** ClusterDeploymentDetailsStep: [useDetailsFormik] *)

Module DetailsFormik.
Section DetailsFormik.

(** The resources, the cluster view-model, the form values and the
    validation schema are opaque; [getAICluster], [getOCPVersions],
    [getClusterDetailsInitialValues] and [getClusterDetailsValidationSchema]
    are imported helpers and are parameters. *)
Context {ClusterDeployment AgentClusterInstall Agent ClusterImageSet : Type}.
Context {Cluster OcpVersions ManagedDomain ClusterDetailsValues Lazy : Type}.

Record UseDetailsFormikArgs :=
  { clusterImages : list ClusterImageSet;
    usedClusterNames : list string;
    pullSecretSet : option bool;
    defaultPullSecret : option string;
    clusterDeployment : option ClusterDeployment;
    agentClusterInstall : option AgentClusterInstall;
    agents : option (list Agent);
    defaultBaseDomain : option string }.

(** The argument objects of [getAICluster] and
    [getClusterDetailsInitialValues]. *)
Record AIClusterArgs :=
  { ai_clusterDeployment : ClusterDeployment;
    ai_agentClusterInstall : AgentClusterInstall;
    ai_agents : option (list Agent);
    ai_pullSecretSet : option bool }.

Record InitialValuesArgs :=
  { managedDomains : list ManagedDomain;
    cluster : option Cluster;
    pullSecret : option string;
    ocpVersions : OcpVersions;
    baseDomain : option string }.

Variable getAICluster : AIClusterArgs → Cluster.
Variable getOCPVersions : list ClusterImageSet → OcpVersions.
Variable getClusterDetailsInitialValues : InitialValuesArgs → ClusterDetailsValues.
Variable getClusterDetailsValidationSchema : list string → option Cluster → Lazy.

(** The dependency arrays of the first and the third [useMemo]. *)
Definition ClusterDeps : Type :=
  option AgentClusterInstall * option ClusterDeployment
  * option (list Agent) * option bool.

Definition SchemaDeps : Type := list string * option Cluster.

(** React's comparison of a dependency array with the one of the last
    render ([Object.is] on each element). *)
Variable same_cluster_deps : ClusterDeps → ClusterDeps → bool.
Variable same_schema_deps : SchemaDeps → SchemaDeps → bool.

(** [React.useMemo(compute, deps)]: a cell keeps the dependencies and the
    value of the last computation; the value is computed again when there
    is none yet or the dependencies differ. *)
Definition useMemo {D V : Type} (same : D → D → bool) (compute : unit → V)
    (deps : D) (cell : option (D * V)) : V * option (D * V) :=
  match cell with
  | Some (deps', v) =>
      if same deps' deps then (v, cell)
      else let v' := compute tt in (v', Some (deps, v'))
  | None => let v := compute tt in (v, Some (deps, v))
  end.

(** The three memo cells of the hook, in call order. *)
Record Cells :=
  { cluster_cell : option (ClusterDeps * option Cluster);
    initialValues_cell : option (unit * ClusterDetailsValues);
    validationSchema_cell : option (SchemaDeps * Lazy) }.

(** The cells of a component that has not rendered yet. *)
Definition mount : Cells :=
  {| cluster_cell := None; initialValues_cell := None;
     validationSchema_cell := None |}.

(** [clusterDeployment && agentClusterInstall ? getAICluster({...}) : undefined] *)
Definition compute_cluster (args : UseDetailsFormikArgs) : option Cluster :=
  match clusterDeployment args, agentClusterInstall args with
  | Some cd, Some aci =>
      Some (getAICluster {| ai_clusterDeployment := cd;
                            ai_agentClusterInstall := aci;
                            ai_agents := agents args;
                            ai_pullSecretSet := pullSecretSet args |})
  | _, _ => None
  end.

(** One render of [useDetailsFormik]: the pair it returns and the cells
    it leaves. An empty dependency array always compares equal. *)
Definition useDetailsFormik (args : UseDetailsFormikArgs) (cells : Cells)
    : (ClusterDetailsValues * Lazy) * Cells :=
  let '(cluster, c1) :=
    useMemo same_cluster_deps
      (λ _, compute_cluster args)
      (agentClusterInstall args, clusterDeployment args, agents args,
       pullSecretSet args)
      (cluster_cell cells) in
  let '(initialValues, c2) :=
    useMemo (λ _ _ : unit, true)
      (λ _, getClusterDetailsInitialValues
              {| managedDomains := [];
                 cluster := cluster;
                 pullSecret := defaultPullSecret args;
                 ocpVersions := getOCPVersions (clusterImages args);
                 baseDomain := defaultBaseDomain args |})
      tt
      (initialValues_cell cells) in
  let '(validationSchema, c3) :=
    useMemo same_schema_deps
      (λ _, getClusterDetailsValidationSchema (usedClusterNames args) cluster)
      (usedClusterNames args, cluster)
      (validationSchema_cell cells) in
  ((initialValues, validationSchema),
   {| cluster_cell := c1; initialValues_cell := c2;
      validationSchema_cell := c3 |}).

(** The pairs returned by successive renders with the given arguments. *)
Fixpoint renders (argss : list UseDetailsFormikArgs) (cells : Cells)
    : list (ClusterDetailsValues * Lazy) :=
  match argss with
  | [] => []
  | args :: argss' =>
      let '(result, cells') := useDetailsFormik args cells in
      result :: renders argss' cells'
  end.

End DetailsFormik.
Global Arguments UseDetailsFormikArgs : clear implicits.
Global Arguments AIClusterArgs : clear implicits.
Global Arguments InitialValuesArgs : clear implicits.
Global Arguments Cells : clear implicits.
End DetailsFormik.

(** * Properties *)

(** ** Array helpers *)

Section JsFacts.
Context {A : Type}.

(** [x] is the first element of [l] that satisfies [p]. *)
Definition first_such (p : A → Prop) (l : list A) (x : A) : Prop :=
  ∃ l1 l2, l = l1 ++ x :: l2 ∧ p x ∧ ∀ y, y ∈ l1 → ¬ p y.

Lemma find_Some (p : A → bool) (l : list A) (x : A) :
  Js.find p l = Some x ↔ first_such (λ y, p y = true) l x.
Proof.
  induction l as [|a l IH]; simpl.
  - split; [discriminate|].
    intros (l1 & l2 & Hl & _). by destruct l1.
  - destruct (p a) eqn:Hpa.
    + split.
      * intros [= ->]. exists [], l. split_and!; [done|done|].
        intros y Hy. by apply elem_of_nil in Hy.
      * intros (l1 & l2 & Hl & Hx & Hfirst).
        destruct l1 as [|b l1]; simpl in Hl.
        -- by injection Hl as -> _.
        -- injection Hl as -> _. exfalso.
           apply (Hfirst b); [apply list_elem_of_here|done].
    + rewrite IH. split.
      * intros (l1 & l2 & -> & Hx & Hfirst).
        exists (a :: l1), l2. split_and!; [done|done|].
        intros y [->|Hy]%elem_of_cons; [congruence|by apply Hfirst].
      * intros (l1 & l2 & Hl & Hx & Hfirst).
        destruct l1 as [|b l1]; simpl in Hl.
        -- injection Hl as -> _. congruence.
        -- injection Hl as -> ->. exists l1, l2. split_and!; [done|done|].
           intros y Hy. apply Hfirst. by apply list_elem_of_further.
Qed.

Lemma find_None (p : A → bool) (l : list A) :
  Js.find p l = None ↔ ∀ y, y ∈ l → p y = false.
Proof.
  induction l as [|a l IH]; simpl.
  - split; [|done]. intros _ y Hy. by apply elem_of_nil in Hy.
  - destruct (p a) eqn:Hpa.
    + split; [discriminate|]. intros H.
      specialize (H a (list_elem_of_here _ _)). congruence.
    + rewrite IH. split.
      * intros H y [->|Hy]%elem_of_cons; auto.
      * intros H y Hy. apply H. by apply list_elem_of_further.
Qed.

Lemma strict_eq_true (s t : string) : Js.strict_eq s t = true ↔ s = t.
Proof. unfold Js.strict_eq. apply bool_decide_eq_true. Qed.

Lemma strict_eq_false (s t : string) : Js.strict_eq s t = false ↔ s ≠ t.
Proof. unfold Js.strict_eq. apply bool_decide_eq_false. Qed.

End JsFacts.

(** ** Condition lookup *)

Section ConditionsFacts.
Import Conditions.
Context {StatusCondition : Type} (type : StatusCondition → string).

(** The lookup that both helpers perform on [status?.conditions]. *)
Definition validated_of (st : option (ResourceStatus StatusCondition))
    (c : StatusCondition) : Prop :=
  ∃ s cs, st = Some s ∧ conditions s = Some cs
          ∧ first_such (λ c', type c' = "Validated") cs c.

Definition no_validated (st : option (ResourceStatus StatusCondition)) : Prop :=
  st = None
  ∨ (∃ s, st = Some s ∧ conditions s = None)
  ∨ (∃ s cs, st = Some s ∧ conditions s = Some cs
             ∧ ∀ c, c ∈ cs → type c ≠ "Validated").

Lemma first_such_validated (cs : list StatusCondition) (c : StatusCondition) :
  first_such (λ y, isValidated type y = true) cs c
  ↔ first_such (λ c', type c' = "Validated") cs c.
Proof.
  unfold first_such, isValidated.
  split; intros (l1 & l2 & Hl & Hc & Hfirst); exists l1, l2;
    (split_and!; [done| by apply strict_eq_true |]);
    intros y Hy Hty; apply (Hfirst y Hy); by apply strict_eq_true.
Qed.

Lemma lookup_Some (st : option (ResourceStatus StatusCondition)) (c : StatusCondition) :
  match st with
  | None => None
  | Some s => match conditions s with
              | None => None
              | Some cs => Js.find (isValidated type) cs
              end
  end = Some c ↔ validated_of st c.
Proof.
  unfold validated_of. destruct st as [[[cs|]]|]; simpl.
  - rewrite find_Some, first_such_validated. split.
    + intros H. by exists {| conditions := Some cs |}, cs.
    + by intros (s & cs' & [= <-] & [= <-] & H).
  - split; [discriminate|]. by intros (s & cs' & [= <-] & [=] & _).
  - split; [discriminate|]. by intros (s & cs' & [=] & _).
Qed.

Lemma lookup_None (st : option (ResourceStatus StatusCondition)) :
  match st with
  | None => None
  | Some s => match conditions s with
              | None => None
              | Some cs => Js.find (isValidated type) cs
              end
  end = None ↔ no_validated st.
Proof.
  unfold no_validated. destruct st as [[[cs|]]|]; simpl.
  - rewrite find_None. split.
    + intros H. right; right. exists {| conditions := Some cs |}, cs.
      split_and!; [done|done|].
      intros c Hc. apply strict_eq_false, (H c Hc).
    + intros [[=]|[(s & [= <-] & [=])|(s & cs' & [= <-] & [= <-] & H)]].
      intros c Hc. apply strict_eq_false, (H c Hc).
  - split; [|done]. intros _. right; left. by eexists.
  - split; [|done]. by left.
Qed.

(** C4. [getClusterValidatedCondition] and [getAgentValidatedCondition]
    return the first element of [resource.status.conditions] whose [type]
    is ['Validated'], and [undefined] exactly when [status] is absent,
    [conditions] is absent, or no element has that type. Both are functions
    of the resource alone: they read it and build nothing from it but the
    answer, so the resource is as it was. *)
Theorem validated_condition_lookup
    (resource : AgentClusterInstallK8sResource StatusCondition)
    (agent : AgentK8sResource StatusCondition) :
  (∀ c, getClusterValidatedCondition type resource = Some c
        ↔ validated_of (aci_status resource) c)
  ∧ (getClusterValidatedCondition type resource = None
     ↔ no_validated (aci_status resource))
  ∧ (∀ c, getAgentValidatedCondition type agent = Some c
          ↔ validated_of (agent_status agent) c)
  ∧ (getAgentValidatedCondition type agent = None
     ↔ no_validated (agent_status agent)).
Proof.
  unfold getClusterValidatedCondition, getAgentValidatedCondition.
  split_and!; [intros c|..|intros c|]; first [apply lookup_Some | apply lookup_None].
Qed.

End ConditionsFacts.

(** Conditions shown as pairs of [type] and [message]. *)
Definition sample_conditions : list (string * string) :=
  [ ("SpecSynced", "The Spec has been successfully applied");
    ("Validated", "The cluster's validations are passing");
    ("Completed", "The installation has not yet started");
    ("Validated", "stale") ].

Example validated_sample :
  Conditions.getClusterValidatedCondition fst
    {| Conditions.aci_metadata := None;
       Conditions.aci_status :=
         Some {| Conditions.conditions := Some sample_conditions |} |}
  = Some ("Validated", "The cluster's validations are passing").
Proof. reflexivity. Qed.

Example validated_sample_absent :
  Conditions.getAgentValidatedCondition fst
    {| Conditions.agent_metadata := None;
       Conditions.agent_status :=
         Some {| Conditions.conditions := Some (take 1 sample_conditions) |} |}
  = None
  ∧ Conditions.getAgentValidatedCondition (StatusCondition := string * string) fst
      {| Conditions.agent_metadata := None; Conditions.agent_status := None |}
    = None.
Proof. split; reflexivity. Qed.

(** ** Agent locations *)

Section LocationsFacts.
Import Locations.
Variable AGENT_LOCATION_LABEL_KEY : string.

Lemma first_such_key (es : list MatchExpression) (e : MatchExpression) :
  Js.find (λ expr, Js.strict_eq (key expr) AGENT_LOCATION_LABEL_KEY) es = Some e
  ↔ first_such (λ expr, key expr = AGENT_LOCATION_LABEL_KEY) es e.
Proof.
  rewrite find_Some. unfold first_such.
  split; intros (l1 & l2 & Hl & He & Hfirst); exists l1, l2;
    (split_and!; [done| by apply strict_eq_true |]);
    intros y Hy Hk; apply (Hfirst y Hy); by apply strict_eq_true.
Qed.

(** C5. [getLocationsFromMatchExpressions] returns the [values] of the
    first expression whose key is [AGENT_LOCATION_LABEL_KEY]; it returns
    the empty list when the argument is omitted, when no expression has
    that key, and when the first expression with that key has no [values]. *)
Theorem locations_from_match_expressions :
  getLocationsFromMatchExpressions AGENT_LOCATION_LABEL_KEY None = []
  ∧ (∀ es, (∀ e, e ∈ es → key e ≠ AGENT_LOCATION_LABEL_KEY) →
           getLocationsFromMatchExpressions AGENT_LOCATION_LABEL_KEY (Some es) = [])
  ∧ (∀ es e vs,
       first_such (λ expr, key expr = AGENT_LOCATION_LABEL_KEY) es e →
       values e = Some vs →
       getLocationsFromMatchExpressions AGENT_LOCATION_LABEL_KEY (Some es) = vs)
  ∧ (∀ es e,
       first_such (λ expr, key expr = AGENT_LOCATION_LABEL_KEY) es e →
       values e = None →
       getLocationsFromMatchExpressions AGENT_LOCATION_LABEL_KEY (Some es) = []).
Proof.
  unfold getLocationsFromMatchExpressions. split_and!.
  - reflexivity.
  - intros es Hes.
    assert (Js.find (λ expr, Js.strict_eq (key expr) AGENT_LOCATION_LABEL_KEY) es = None)
      as ->; [|done].
    apply find_None. intros e He. by apply strict_eq_false, Hes.
  - intros es e vs Hfirst Hvs. apply first_such_key in Hfirst.
    by rewrite Hfirst, Hvs.
  - intros es e Hfirst Hvs. apply first_such_key in Hfirst.
    by rewrite Hfirst, Hvs.
Qed.

(** C8. For a non-empty list of locations, reading the locations back
    from the match expression built for them gives the list again. For an
    undefined or empty list no expression is built ([undefined]), and the
    reader, falling back to its default empty argument, gives the empty
    list. *)
Theorem locations_round_trip :
  (∀ ls, ls ≠ [] → getLocationsFromMatchExpressions AGENT_LOCATION_LABEL_KEY
           (getAgentLocationMatchExpression AGENT_LOCATION_LABEL_KEY (Some ls))
         = ls)
  ∧ getAgentLocationMatchExpression AGENT_LOCATION_LABEL_KEY None = None
  ∧ getAgentLocationMatchExpression AGENT_LOCATION_LABEL_KEY (Some []) = None
  ∧ getLocationsFromMatchExpressions AGENT_LOCATION_LABEL_KEY None = [].
Proof.
  split_and!; try reflexivity.
  intros [|l ls] Hne; [done|].
  unfold getAgentLocationMatchExpression, getLocationsFromMatchExpressions. simpl.
  unfold Js.strict_eq. by rewrite bool_decide_eq_true_2.
Qed.

End LocationsFacts.

(** The label key used by the console. *)
Definition location_label_key : string :=
  "agentclusterinstalls.extensions.hive.openshift.io/location".

Lemma locations_from_match_expressions_witness :
  let e1 := {| Locations.key := "zone"; Locations.operator := "In";
               Locations.values := Some ["z1"] |} in
  let e2 := {| Locations.key := location_label_key; Locations.operator := "In";
               Locations.values := Some ["brno"; "boston"] |} in
  let e3 := {| Locations.key := location_label_key; Locations.operator := "Exists";
               Locations.values := None |} in
  Locations.getLocationsFromMatchExpressions location_label_key (Some [e1]) = []
  ∧ Locations.getLocationsFromMatchExpressions location_label_key (Some [e1; e2; e3])
    = ["brno"; "boston"]
  ∧ Locations.getLocationsFromMatchExpressions location_label_key (Some [e1; e3; e2]) = [].
Proof.
  intros e1 e2 e3.
  destruct (locations_from_match_expressions location_label_key)
    as (_ & Hnone & Hvalues & Hnovalues).
  split_and!.
  - apply Hnone. intros e ->%list_elem_of_singleton. done.
  - apply (Hvalues _ e2); [|done].
    exists [e1], [e3]. split_and!; [done|done|].
    intros y ->%list_elem_of_singleton. done.
  - apply (Hnovalues _ e3); [|done].
    exists [e1], [e2]. split_and!; [done|done|].
    intros y ->%list_elem_of_singleton. done.
Defined.

Lemma locations_round_trip_witness :
  ["brno"; "boston"] ≠ []
  ∧ Locations.getLocationsFromMatchExpressions location_label_key
      (Locations.getAgentLocationMatchExpression location_label_key
         (Some ["brno"; "boston"]))
    = ["brno"; "boston"].
Proof.
  split; [done|].
  apply (proj1 (locations_round_trip location_label_key)). done.
Defined.

(** ** The alerts context is a passthrough over the reducer *)

Section AlertsFacts.
Import Alerts.
Context {AlertProps AlertPayload : Type}.
Variable alertsReducer :
  list AlertProps → AlertsAction AlertPayload → list AlertProps.

Local Abbreviation Hook := (ReducerHook AlertProps AlertPayload).

(** The state a hook cell shows at its next render. *)
Definition settled (h : Hook) : list AlertProps :=
  fold_left alertsReducer (pending h) (state h).

Lemma settled_rerender (h : Hook) :
  settled (rerender alertsReducer h) = settled h.
Proof. reflexivity. Qed.

Lemma settled_dispatch (h : Hook) (a : AlertsAction AlertPayload) :
  settled (dispatchAlertsAction a h) = alertsReducer (settled h) a.
Proof.
  unfold settled, dispatchAlertsAction. simpl. by rewrite fold_left_app.
Qed.

Lemma dispatched_corresponding (h : Hook) (ev : ProviderEvent AlertPayload) :
  dispatched h ev = corresponding_action ev.
Proof. by destruct ev. Qed.

Lemma settled_step (h : Hook) (ev : ProviderEvent AlertPayload) :
  settled (provider_step alertsReducer h ev)
  = fold_left alertsReducer (corresponding_action ev) (settled h).
Proof.
  destruct ev; simpl; first [apply settled_dispatch | apply settled_rerender].
Qed.

Lemma settled_steps (evs : list (ProviderEvent AlertPayload)) (h : Hook) :
  settled (fold_left (provider_step alertsReducer) evs h)
  = fold_left alertsReducer (concat (corresponding_action <$> evs)) (settled h).
Proof.
  revert h. induction evs as [|ev evs IH]; intros h; [done|].
  simpl. rewrite IH, settled_step. by rewrite fold_left_app.
Qed.

(** C6. Each operation of the value that [AlertsContextProvider] puts in
    the context dispatches exactly the corresponding [alertsSlice] action,
    and after any sequence of operations (and re-renders in between) the
    [alerts] of the context value, once the provider has rendered, is the
    left fold of [alertsSlice.reducer] over the dispatched actions,
    starting from the empty list. *)
Theorem alerts_context_passthrough :
  (∀ (h : Hook) alert,
      addAlert (AlertsContextProvider h) alert = [addAlertAction alert])
  ∧ (∀ (h : Hook) alertKey,
      removeAlert (AlertsContextProvider h) alertKey = [removeAlertAction alertKey])
  ∧ (∀ (h : Hook),
      clearAlerts (AlertsContextProvider h) tt = [clearAlertsAction])
  ∧ (∀ evs : list (ProviderEvent AlertPayload),
      alerts (AlertsContextProvider (rerender alertsReducer (provider_run alertsReducer evs)))
      = fold_left alertsReducer (concat (corresponding_action <$> evs)) []).
Proof.
  split_and!; try reflexivity.
  intros evs. unfold provider_run.
  change (settled (fold_left (provider_step alertsReducer) evs useReducer)
          = fold_left alertsReducer (concat (corresponding_action <$> evs)) []).
  by rewrite settled_steps.
Qed.

(** C9. [useAlerts] never throws: the context is created with a default
    value, every provider passes an object, so [React.useContext] never
    gives [undefined]; outside any provider [useAlerts] returns the
    default: no alerts, operations that dispatch nothing. *)
Theorem useAlerts_never_throws :
  (∀ ancestors : list Hook, useContext ancestors ≠ None)
  ∧ (∀ ancestors : list Hook, ∃ context, useAlerts ancestors = Js.Normal context)
  ∧ (∃ context : AlertsContextType AlertProps AlertPayload,
        useAlerts [] = Js.Normal context
        ∧ AlertsContext = Some context
        ∧ alerts context = []
        ∧ (∀ alert, addAlert context alert = [])
        ∧ (∀ alertKey, removeAlert context alertKey = [])
        ∧ clearAlerts context tt = []).
Proof.
  split_and!.
  - by intros [|h ancestors].
  - intros [|h ancestors]; by eexists.
  - eexists. split_and!; reflexivity.
Qed.

End AlertsFacts.

(** ** BMCForm: the NMStateConfig mapping *)

Section NMStateFacts.
Import BMCForm.
Context {YamlDoc : Type}.
Variable yaml_load : string → Js.completion YamlDoc.

(** Both fields of a mapping entry are filled in. *)
Definition both_non_empty (m : MacMappingEntry) : Prop :=
  macAddress m ≠ "" ∧ name m ≠ "".

Global Instance both_non_empty_dec (m : MacMappingEntry) : Decision (both_non_empty m).
Proof. unfold both_non_empty. apply _. Defined.

Lemma length_truthy (s : string) :
  Js.truthy_number (String.length s) = true ↔ s ≠ "".
Proof. destruct s; simpl; split; congruence. Qed.

Lemma lengths_truthy (m : MacMappingEntry) :
  Js.truthy_number
    (Js.and_number (String.length (macAddress m)) (String.length (name m))) = true
  ↔ both_non_empty m.
Proof.
  unfold Js.and_number, both_non_empty.
  destruct (Js.truthy_number (String.length (macAddress m))) eqn:Hmac.
  - apply length_truthy in Hmac. rewrite length_truthy. tauto.
  - rewrite Hmac. split; [discriminate|].
    intros [Hne _]. apply length_truthy in Hne. congruence.
Qed.

Lemma mapping_filter (l : list MacMappingEntry) :
  Js.filter (λ m, Js.and_number (String.length (macAddress m))
                                (String.length (name m))) l
  = filter both_non_empty l.
Proof.
  induction l as [|m l IH]; [done|]. simpl.
  destruct (Js.truthy_number _) eqn:Hm.
  - apply lengths_truthy in Hm. rewrite filter_cons_True by done. by f_equal.
  - rewrite filter_cons_False; [done|].
    intros Hm'%lengths_truthy. congruence.
Qed.

(** C2. [getNMState] maps the form values and the InfraEnv to an
    NMStateConfig object: fixed [apiVersion] and [kind]; [generateName] is
    the [metadata.name] of the InfraEnv followed by ["-"]; [namespace] and
    [labels.infraEnv] are the [metadata.namespace] and [metadata.name] of
    the InfraEnv (undefined when the InfraEnv has no [metadata]);
    [labels.bmcMAC] is [values.bmcAddress]; [spec.config] is the document
    that [yaml.load] parses from [values.nmState]; [spec.interfaces] is
    the subsequence, in the original order, of the entries of
    [values.macMapping] whose [macAddress] and [name] are both non-empty. *)
Theorem getNMState_mapping
    (values : AddBmcValues) (infraEnv : InfraEnvK8sResource) (doc : YamlDoc) :
  yaml_load (nmState values) = Js.Normal doc →
  ∃ nm,
    getNMState yaml_load values infraEnv = Js.Normal nm
    ∧ apiVersion nm = "agent-install.openshift.io/v1beta1"
    ∧ kind nm = "NMStateConfig"
    ∧ (∀ m n, infraEnv_metadata infraEnv = Some m → K8s.name m = Some n →
              generateName (metadata nm) = n +:+ "-")
    ∧ (∀ m, infraEnv_metadata infraEnv = Some m →
            namespace (metadata nm) = K8s.namespace m
            ∧ labels_infraEnv (labels (metadata nm)) = K8s.name m)
    ∧ (infraEnv_metadata infraEnv = None →
       namespace (metadata nm) = None
       ∧ labels_infraEnv (labels (metadata nm)) = None)
    ∧ labels_bmcMAC (labels (metadata nm)) = bmcAddress values
    ∧ config (spec nm) = doc
    ∧ interfaces (spec nm) = filter both_non_empty (macMapping values)
    ∧ interfaces (spec nm) `sublist_of` macMapping values
    ∧ (∀ m, m ∈ interfaces (spec nm) ↔ m ∈ macMapping values ∧ both_non_empty m).
Proof.
  intros Hload. unfold getNMState. rewrite Hload.
  eexists. split; [reflexivity|]. simpl.
  rewrite mapping_filter.
  unfold infraEnv_name, infraEnv_namespace.
  split_and!; try reflexivity.
  - intros m n -> Hn. by rewrite Hn.
  - by intros m ->.
  - by intros ->.
  - apply sublist_filter.
  - intros m. rewrite list_elem_of_filter. tauto.
Qed.

(** When the InfraEnv has no name the template literal prints
    ["undefined"], and a document that does not parse makes [getNMState]
    throw what [yaml.load] throws. *)
Lemma getNMState_unnamed (values : AddBmcValues) (infraEnv : InfraEnvK8sResource)
    (nm : NMStateConfig YamlDoc) :
  getNMState yaml_load values infraEnv = Js.Normal nm →
  infraEnv_name infraEnv = None →
  generateName (metadata nm) = "undefined-".
Proof.
  unfold getNMState. destruct (yaml_load _); [|discriminate].
  intros [= <-] Hname. simpl. by rewrite Hname.
Qed.

Lemma getNMState_throws (values : AddBmcValues) (infraEnv : InfraEnvK8sResource)
    (e : Js.Thrown) :
  yaml_load (nmState values) = Js.Throw e →
  getNMState yaml_load values infraEnv = Js.Throw e.
Proof. intros Hload. unfold getNMState. by rewrite Hload. Qed.

End NMStateFacts.

(** ** BMCForm: submitting the form *)

Section SubmitFacts.
Import BMCForm.
Context {YamlDoc : Type}.
Variable yaml_load : string → Js.completion YamlDoc.
Variable onCreate :
  AddBmcValues → option (NMStateConfig YamlDoc) → Js.completion unit.
Variable onClose : unit → Js.completion unit.
Variable hasDHCP : bool.
Variable infraEnv : InfraEnvK8sResource.

Local Abbreviation St := (State YamlDoc).
Local Abbreviation submit :=
  (handleSubmit yaml_load onCreate onClose hasDHCP infraEnv).
Local Abbreviation nmArgument := (nmStateArgument yaml_load hasDHCP infraEnv).

Ltac run_handler :=
  unfold handleSubmit, Eff.try_catch, setError, invoke, mbind, eff_bind,
    Eff.bind, Eff.modify, Eff.await; simpl.

(** What the [catch] block makes of the caught value [e] in store [s]:
    it stores [e.message], or throws when that cannot be read. *)
Definition caught (e : Js.Thrown) (s : St) : Js.completion unit * St :=
  match Js.read_message e with
  | Js.Normal message =>
      (Js.Normal tt, {| error := message; calls := calls s |})
  | Js.Throw t => (Js.Throw t, s)
  end.

Lemma caught_calls (e : Js.Thrown) (s : St) : calls (snd (caught e s)) = calls s.
Proof. unfold caught. by destruct (Js.read_message e). Qed.

Lemma caught_error_object (e : Js.Error) (s : St) :
  caught (Js.ErrorObject e) s
  = (Js.Normal tt, {| error := Some (Js.message e); calls := calls s |}).
Proof. reflexivity. Qed.

(** The three ways a submission can go. *)
Lemma submit_parse_error (values : AddBmcValues) (s : St) (e : Js.Thrown) :
  nmArgument values = Js.Throw e →
  submit values s = caught e {| error := None; calls := calls s |}.
Proof.
  intros Harg. run_handler. rewrite Harg. unfold caught.
  by destruct (Js.read_message e).
Qed.

Lemma submit_rejected (values : AddBmcValues) (s : St) nm (e : Js.Thrown) :
  nmArgument values = Js.Normal nm →
  onCreate values nm = Js.Throw e →
  submit values s
  = caught e {| error := None; calls := calls s ++ [OnCreate values nm] |}.
Proof.
  intros Harg Hcreate. run_handler. rewrite Harg, Hcreate. unfold caught.
  by destruct (Js.read_message e).
Qed.

Lemma submit_resolved (values : AddBmcValues) (s : St) nm :
  nmArgument values = Js.Normal nm →
  onCreate values nm = Js.Normal tt →
  submit values s
  = match onClose tt with
    | Js.Normal _ =>
        (Js.Normal tt,
         {| error := None;
            calls := (calls s ++ [OnCreate values nm]) ++ [OnClose] |})
    | Js.Throw e =>
        caught e {| error := None;
                    calls := (calls s ++ [OnCreate values nm]) ++ [OnClose] |}
    end.
Proof.
  intros Harg Hcreate. run_handler. rewrite Harg, Hcreate.
  destruct (onClose tt) as [[]|e]; [done|]. unfold caught.
  by destruct (Js.read_message e).
Qed.

(** The calls of a submission, in all cases. *)
Lemma submit_calls (values : AddBmcValues) (s : St) :
  calls (Eff.exec (submit values) s)
  = calls s ++
    match nmArgument values with
    | Js.Throw _ => []
    | Js.Normal nm =>
        match onCreate values nm with
        | Js.Throw _ => [OnCreate values nm]
        | Js.Normal _ => [OnCreate values nm; OnClose]
        end
    end.
Proof.
  unfold Eff.exec.
  destruct (nmArgument values) as [nm|e] eqn:Harg.
  - destruct (onCreate values nm) as [[]|e] eqn:Hcreate.
    + rewrite (submit_resolved values s nm Harg Hcreate).
      destruct (onClose tt); [|rewrite caught_calls]; simpl;
        by rewrite <- app_assoc.
    + by rewrite (submit_rejected values s nm e Harg Hcreate), caught_calls.
  - rewrite (submit_parse_error values s e Harg), caught_calls.
    simpl. by rewrite app_nil_r.
Qed.

Lemma drop_own_length {A} (l k : list A) : drop (length l) (l ++ k) = k.
Proof. by rewrite drop_app_length. Qed.

Lemma submit_new_calls (values : AddBmcValues) (s : St) :
  new_calls (submit values) s
  = match nmArgument values with
    | Js.Throw _ => []
    | Js.Normal nm =>
        match onCreate values nm with
        | Js.Throw _ => [OnCreate values nm]
        | Js.Normal _ => [OnCreate values nm; OnClose]
        end
    end.
Proof. unfold new_calls. rewrite submit_calls. apply drop_own_length. Qed.

Lemma errorAlert_message (msg : string) :
  errorAlert (Some msg)
  = if decide (msg = "") then None
    else Some {| title := "Failed to add host"; variant := danger;
                 isInline := true; children := msg |}.
Proof. by destruct msg. Qed.

(** C1. When [onCreate] rejects, [handleSubmit] catches the error and
    stores its message in [error], which the form shows in an inline danger
    alert; the only call made is the one call of [onCreate]: [onClose] is
    not called and [onCreate] is not called again. When [onCreate]
    resolves, [onClose] is called exactly once. *)
Theorem handleSubmit_create_outcome (values : AddBmcValues) (s : St) nm :
  let run := handleSubmit yaml_load onCreate onClose hasDHCP infraEnv values in
  nmStateArgument yaml_load hasDHCP infraEnv values = Js.Normal nm →
  (∀ e, onCreate values nm = Js.Throw (Js.ErrorObject e) →
        run s = (Js.Normal tt, {| error := Some (Js.message e);
                                  calls := calls s ++ [OnCreate values nm] |})
        ∧ new_calls run s = [OnCreate values nm]
        ∧ count isOnClose (new_calls run s) = 0
        ∧ count isOnCreate (new_calls run s) = 1
        ∧ errorAlert (error (Eff.exec run s))
          = if decide (Js.message e = "") then None
            else Some {| title := "Failed to add host"; variant := danger;
                         isInline := true; children := Js.message e |})
  ∧ (onCreate values nm = Js.Normal tt →
        new_calls run s = [OnCreate values nm; OnClose]
        ∧ count isOnClose (new_calls run s) = 1
        ∧ count isOnCreate (new_calls run s) = 1).
Proof.
  intros run Harg. subst run. split.
  - intros e Hcreate.
    rewrite submit_new_calls, Harg, Hcreate.
    unfold Eff.exec.
    rewrite (submit_rejected values s nm _ Harg Hcreate), caught_error_object.
    simpl. by rewrite errorAlert_message.
  - intros Hcreate. by rewrite submit_new_calls, Harg, Hcreate.
Qed.

(** When the document does not parse, the parse error's message is what
    the form shows, and nothing is called. *)
Lemma submit_yaml_error (values : AddBmcValues) (s : St) (e : Js.Error) :
  hasDHCP = false →
  yaml_load (nmState values) = Js.Throw (Js.ErrorObject e) →
  submit values s
  = (Js.Normal tt, {| error := Some (Js.message e); calls := calls s |}).
Proof.
  intros HnoDHCP Hload.
  rewrite (submit_parse_error values s (Js.ErrorObject e)); [done|].
  unfold nmStateArgument. rewrite HnoDHCP.
  by rewrite (getNMState_throws yaml_load values infraEnv _ Hload).
Qed.

(** C7, in the form the code satisfies. A submission calls [onCreate] at
    most once: once when [hasDHCP] is set or [yaml.load] parses
    [values.nmState], whether the call then succeeds or fails, and not at
    all when [hasDHCP] is not set and [yaml.load] throws; the message of
    the parse error is then what is stored in [error] and shown in the
    alert, and nothing is called. *)
Theorem handleSubmit_onCreate_count (values : AddBmcValues) (s : St) :
  let run := handleSubmit yaml_load onCreate onClose hasDHCP infraEnv values in
  count isOnCreate (new_calls run s)
  = (if hasDHCP then 1
     else match yaml_load (nmState values) with
          | Js.Normal _ => 1
          | Js.Throw _ => 0
          end)
  ∧ count isOnCreate (new_calls run s) ≤ 1
  ∧ (∀ e, hasDHCP = false →
          yaml_load (nmState values) = Js.Throw (Js.ErrorObject e) →
          run s = (Js.Normal tt,
                   {| error := Some (Js.message e); calls := calls s |})
          ∧ new_calls run s = []
          ∧ errorAlert (error (Eff.exec run s))
            = if decide (Js.message e = "") then None
              else Some {| title := "Failed to add host"; variant := danger;
                           isInline := true; children := Js.message e |}).
Proof.
  intros run. subst run.
  assert (count isOnCreate (new_calls (submit values) s)
          = match nmArgument values with Js.Normal _ => 1 | Js.Throw _ => 0 end)
    as Hcount.
  { rewrite submit_new_calls.
    destruct (nmArgument values) as [nm|e]; [|done].
    by destruct (onCreate values nm). }
  split_and!.
  - rewrite Hcount. unfold nmStateArgument, getNMState.
    destruct hasDHCP; [done|]. by destruct (yaml_load (nmState values)).
  - rewrite Hcount. destruct (nmArgument values); lia.
  - intros e HnoDHCP Hload.
    pose proof (submit_yaml_error values s e HnoDHCP Hload) as Hrun.
    unfold new_calls, Eff.exec. rewrite Hrun. simpl.
    by rewrite drop_all, errorAlert_message.
Qed.

End SubmitFacts.

(** ** A concrete submission *)

(** js-yaml on the documents used below, a parsed document being shown by
    its text: the unterminated flow mapping ["{"] makes [yaml.load] throw
    a [YAMLException]. *)
Definition sample_yaml_load (s : string) : Js.completion string :=
  if bool_decide (s = "{")
  then Js.Throw
         (Js.ErrorObject
            {| Js.name := "YAMLException";
               Js.message := "unexpected end of the stream within a flow collection" |})
  else Js.Normal s.

Definition sample_infraEnv : BMCForm.InfraEnvK8sResource :=
  {| BMCForm.infraEnv_metadata :=
       Some {| K8s.name := Some "infra-1"; K8s.namespace := Some "assisted" |} |}.

Definition sample_mapping : list BMCForm.MacMappingEntry :=
  [ {| BMCForm.macAddress := "02:00:00:80:12:14"; BMCForm.name := "eth0" |};
    {| BMCForm.macAddress := ""; BMCForm.name := "" |};
    {| BMCForm.macAddress := "02:00:00:80:12:15"; BMCForm.name := "" |};
    {| BMCForm.macAddress := ""; BMCForm.name := "eth2" |};
    {| BMCForm.macAddress := "02:00:00:80:12:16"; BMCForm.name := "eth1" |} ].

Definition sample_values (doc : string) : BMCForm.AddBmcValues :=
  {| BMCForm.hostname := "host-1";
     BMCForm.bmcAddress := "192.168.111.1";
     BMCForm.username := "admin";
     BMCForm.password := "secret";
     BMCForm.bootMACAddress := "02:00:00:80:12:14";
     BMCForm.disableCertificateVerification := true;
     BMCForm.online := false;
     BMCForm.nmState := doc;
     BMCForm.macMapping := sample_mapping |}.

(** Values as a valid form submits them: every field is filled in, and
    so is every row of the mapping. *)
Definition submitted_mapping : list BMCForm.MacMappingEntry :=
  [ {| BMCForm.macAddress := "02:00:00:80:12:14"; BMCForm.name := "eth0" |};
    {| BMCForm.macAddress := "02:00:00:80:12:16"; BMCForm.name := "eth1" |} ].

Definition submitted_values (doc : string) : BMCForm.AddBmcValues :=
  {| BMCForm.hostname := "host-1";
     BMCForm.bmcAddress := "192.168.111.1";
     BMCForm.username := "admin";
     BMCForm.password := "secret";
     BMCForm.bootMACAddress := "02:00:00:80:12:14";
     BMCForm.disableCertificateVerification := true;
     BMCForm.online := false;
     BMCForm.nmState := doc;
     BMCForm.macMapping := submitted_mapping |}.

Definition sample_state : BMCForm.State string :=
  {| BMCForm.error := None; BMCForm.calls := [] |}.

Definition create_fails (_ : BMCForm.AddBmcValues)
    (_ : option (BMCForm.NMStateConfig string)) : Js.completion unit :=
  Js.Throw
    (Js.ErrorObject {| Js.name := "Error"; Js.message := "host-1 already exists" |}).

Definition create_succeeds (_ : BMCForm.AddBmcValues)
    (_ : option (BMCForm.NMStateConfig string)) : Js.completion unit :=
  Js.Normal tt.

Definition close_returns (_ : unit) : Js.completion unit := Js.Normal tt.

Example sample_interfaces :
  ∃ nm, BMCForm.getNMState sample_yaml_load (sample_values "interfaces: []") sample_infraEnv
        = Js.Normal nm
        ∧ BMCForm.generateName (BMCForm.metadata nm) = "infra-1-"
        ∧ BMCForm.interfaces (BMCForm.spec nm)
          = [ {| BMCForm.macAddress := "02:00:00:80:12:14"; BMCForm.name := "eth0" |};
              {| BMCForm.macAddress := "02:00:00:80:12:16"; BMCForm.name := "eth1" |} ].
Proof. eexists. split; [reflexivity|]. split; reflexivity. Qed.

Lemma getNMState_mapping_witness :
  sample_yaml_load (BMCForm.nmState (sample_values "interfaces: []"))
  = Js.Normal "interfaces: []"
  ∧ ∃ nm,
      BMCForm.getNMState sample_yaml_load (sample_values "interfaces: []") sample_infraEnv
      = Js.Normal nm
      ∧ BMCForm.kind nm = "NMStateConfig"
      ∧ BMCForm.generateName (BMCForm.metadata nm) = "infra-1" +:+ "-"
      ∧ BMCForm.namespace (BMCForm.metadata nm) = Some "assisted"
      ∧ BMCForm.labels_infraEnv (BMCForm.labels (BMCForm.metadata nm)) = Some "infra-1"
      ∧ BMCForm.config (BMCForm.spec nm) = "interfaces: []"
      ∧ BMCForm.interfaces (BMCForm.spec nm) = filter both_non_empty sample_mapping.
Proof.
  split; [reflexivity|].
  destruct (getNMState_mapping sample_yaml_load
              (sample_values "interfaces: []") sample_infraEnv "interfaces: []")
    as (nm & Hnm & _ & Hkind & Hname & Hmeta & _ & _ & Hconfig & Hifs & _);
    [reflexivity|].
  exists nm.
  destruct (Hmeta _ eq_refl) as [Hnamespace Hlabel].
  split_and!; try assumption.
  apply (Hname _ "infra-1" eq_refl eq_refl).
Defined.

Lemma handleSubmit_create_outcome_witness :
  ∃ nm,
    BMCForm.nmStateArgument sample_yaml_load false sample_infraEnv
      (submitted_values "interfaces: []")
    = Js.Normal (Some nm)
    ∧ BMCForm.handleSubmit sample_yaml_load create_fails close_returns false
        sample_infraEnv (submitted_values "interfaces: []") sample_state
      = (Js.Normal tt,
         {| BMCForm.error := Some "host-1 already exists";
            BMCForm.calls :=
              [BMCForm.OnCreate (submitted_values "interfaces: []") (Some nm)] |})
    ∧ BMCForm.new_calls
        (BMCForm.handleSubmit sample_yaml_load create_succeeds close_returns false
           sample_infraEnv (submitted_values "interfaces: []")) sample_state
      = [BMCForm.OnCreate (submitted_values "interfaces: []") (Some nm);
         BMCForm.OnClose].
Proof.
  eexists. split; [reflexivity|]. split.
  - apply (proj1 (handleSubmit_create_outcome sample_yaml_load create_fails
                    close_returns false sample_infraEnv
                    (submitted_values "interfaces: []") sample_state _ eq_refl)
             {| Js.name := "Error"; Js.message := "host-1 already exists" |} eq_refl).
  - apply (proj2 (handleSubmit_create_outcome sample_yaml_load create_succeeds
                    close_returns false sample_infraEnv
                    (submitted_values "interfaces: []") sample_state _ eq_refl)
             eq_refl).
Defined.

(** C7 fails as stated: without DHCP, a network configuration that is not
    well-formed YAML makes [getNMState] throw before [onCreate] is reached;
    the submission calls [onCreate] zero times and shows the parse error.
    The form lets such values through: its schema asks of [nmState] only
    that it is a non-empty string, and all other fields are filled in. *)
Lemma handleSubmit_yaml_error_skips_onCreate :
  BMCForm.count BMCForm.isOnCreate
    (BMCForm.new_calls
       (BMCForm.handleSubmit sample_yaml_load create_succeeds close_returns false
          sample_infraEnv (submitted_values "{")) sample_state) = 0
  ∧ BMCForm.handleSubmit sample_yaml_load create_succeeds close_returns false
      sample_infraEnv (submitted_values "{") sample_state
    = (Js.Normal tt,
       {| BMCForm.error :=
            Some "unexpected end of the stream within a flow collection";
          BMCForm.calls := [] |})
  ∧ ¬ (∀ yaml_load onCreate onClose hasDHCP infraEnv values (s : BMCForm.State string),
         BMCForm.count BMCForm.isOnCreate
           (BMCForm.new_calls
              (BMCForm.handleSubmit yaml_load onCreate onClose hasDHCP infraEnv values) s)
         = 1).
Proof.
  split_and!; [reflexivity|reflexivity|].
  intros Hall.
  specialize (Hall sample_yaml_load create_succeeds close_returns false
                sample_infraEnv (submitted_values "{") sample_state).
  discriminate Hall.
Qed.

Lemma handleSubmit_onCreate_count_witness :
  BMCForm.handleSubmit sample_yaml_load create_succeeds close_returns false
    sample_infraEnv (submitted_values "{") sample_state
  = (Js.Normal tt,
     {| BMCForm.error := Some "unexpected end of the stream within a flow collection";
        BMCForm.calls := [] |})
  ∧ BMCForm.new_calls
      (BMCForm.handleSubmit sample_yaml_load create_succeeds close_returns false
         sample_infraEnv (submitted_values "{")) sample_state
    = []
  ∧ BMCForm.errorAlert
      (BMCForm.error
         (Eff.exec
            (BMCForm.handleSubmit sample_yaml_load create_succeeds close_returns false
               sample_infraEnv (submitted_values "{")) sample_state))
    = Some {| BMCForm.title := "Failed to add host"; BMCForm.variant := BMCForm.danger;
              BMCForm.isInline := true;
              BMCForm.children :=
                "unexpected end of the stream within a flow collection" |}.
Proof.
  apply (proj2 (proj2 (handleSubmit_onCreate_count sample_yaml_load create_succeeds
                         close_returns false sample_infraEnv (submitted_values "{")
                         sample_state))
           {| Js.name := "YAMLException";
              Js.message := "unexpected end of the stream within a flow collection" |}
           eq_refl eq_refl).
Defined.

(** ** ClusterDeploymentDetailsStep: leaving the details step *)

Section DetailsStepFacts.
Import DetailsStep.
Context {Values : Type}.
Variable onSaveDetails : Values → Js.completion unit.
Variable validate : Values → bool.

Local Abbreviation St := (State Values).
Local Abbreviation submit := (handleSubmit onSaveDetails).
Local Abbreviation onNext := (handleOnNext onSaveDetails validate).



Definition failed_to_save (error : Js.Thrown) : AlertPayload :=
  {| title := "Failed to save ClusterDeployment"; message := error |}.

Lemma next_run (s : St) :
  next s = (Js.Normal tt,
            {| currentStepId := "hosts-selection";
               calls := calls s ++ [SetCurrentStepId "hosts-selection"] |}).
Proof. reflexivity. Qed.

Lemma handleSubmit_run (values : Values) (s : St) :
  submit values s
  = (Js.Normal tt,
     match onSaveDetails values with
     | Js.Normal _ =>
         {| currentStepId := "hosts-selection";
            calls := calls s ++ [OnSaveDetails values;
                                 SetCurrentStepId "hosts-selection"] |}
     | Js.Throw error =>
         {| currentStepId := currentStepId s;
            calls := calls s ++ [OnSaveDetails values;
                                 AddAlert (failed_to_save error)] |}
     end).
Proof.
  unfold handleSubmit, Eff.try_catch, next, setCurrentStepId, addAlert, record,
    mbind, eff_bind, Eff.bind, Eff.modify, Eff.await. simpl.
  destruct (onSaveDetails values) as [[]|error]; simpl;
    by rewrite <- app_assoc.
Qed.

Lemma handleSubmit_new_calls (values : Values) (s : St) :
  new_calls (submit values) s
  = match onSaveDetails values with
    | Js.Normal _ => [OnSaveDetails values; SetCurrentStepId "hosts-selection"]
    | Js.Throw error => [OnSaveDetails values; AddAlert (failed_to_save error)]
    end.
Proof.
  unfold new_calls, Eff.exec. rewrite handleSubmit_run.
  destruct (onSaveDetails values); simpl; apply drop_own_length.
Qed.

Lemma handleOnNext_new_calls (dirty : bool) (values : Values) (s : St) :
  new_calls (onNext dirty values) s
  = if dirty
    then if validate values then new_calls (submit values) s else []
    else [SetCurrentStepId "hosts-selection"].
Proof.
  unfold handleOnNext, submitForm. destruct dirty.
  - destruct (validate values); [done|].
    unfold new_calls, Eff.exec. simpl. apply drop_all.
  - unfold new_calls, Eff.exec. rewrite next_run. simpl. apply drop_own_length.
Qed.




End DetailsStepFacts.

Definition save_fails (_ : string) : Js.completion unit :=
  Js.Throw
    (Js.ErrorObject {| Js.name := "Error"; Js.message := "cluster name is taken" |}).


(** ** NetworkingStatus *)

Section NetworkingStatusFacts.
Import NetworkingStatus.
Context {Cluster Host Validations Callback : Type}.

Local Abbreviation Value := (PropValue Cluster Host Validations Callback).
Local Abbreviation Props :=
  (HostNetworkingStatusComponentProps Cluster Host Validations Callback).

Lemma status_props (allProps : gmap string Value) :
  component (NetworkingStatus allProps) = "HostStatus"
  ∧ get "statusOverride" (props (NetworkingStatus allProps)) = VString "discovering"
  ∧ get "validationsInfo" (props (NetworkingStatus allProps)) = VValidationsInfo ∅
  ∧ get "sublabel" (props (NetworkingStatus allProps)) = VUndefined.
Proof.
  unfold NetworkingStatus, get. simpl.
  split_and!; [done|..]; by simplify_map_eq.
Qed.

Lemma host_passed_on (p : Props) :
  get "host" (props (NetworkingStatus (props_object p))) = VHost (host p)
  ∧ get "cluster" (props (NetworkingStatus (props_object p))) = VUndefined
  ∧ get "AdditionalNTPSourcesDialogToggleComponent"
      (props (NetworkingStatus (props_object p)))
    = VAdditionalNTPSourcesDialogToggle (VCluster (cluster p)).
Proof.
  unfold NetworkingStatus, props_object, get. simpl.
  destruct (onEditHostname p); split_and!; by simplify_map_eq.
Qed.

(** C10. Whatever cluster, host and [validationsInfo] it is given,
    [NetworkingStatus] renders [HostStatus] with [statusOverride]
    ['discovering'], an empty [validationsInfo] object and an undefined
    [sublabel]: these three props are the same for any two inputs, while
    the host itself is passed on. *)
Theorem networking_status_constant (p q : Props) (allProps : gmap string Value) :
  let constant (el : Element Cluster Host Validations Callback) :=
    component el = "HostStatus"
    ∧ get "statusOverride" (props el) = VString "discovering"
    ∧ get "validationsInfo" (props el) = VValidationsInfo ∅
    ∧ get "sublabel" (props el) = VUndefined in
  constant (NetworkingStatus allProps)
  ∧ constant (NetworkingStatus (props_object p))
  ∧ get "host" (props (NetworkingStatus (props_object p))) = VHost (host p)
  ∧ (∀ k, k ∈ ["statusOverride"; "validationsInfo"; "sublabel"] →
          get k (props (NetworkingStatus (props_object p)))
          = get k (props (NetworkingStatus (props_object q)))).
Proof.
  intros constant. unfold constant.
  split; [|split; [|split]].
  - apply status_props.
  - apply status_props.
  - apply host_passed_on.
  - intros k Hk.
    destruct (status_props (props_object p)) as (_ & Hp1 & Hp2 & Hp3).
    destruct (status_props (props_object q)) as (_ & Hq1 & Hq2 & Hq3).
    revert Hk. rewrite !elem_of_cons, elem_of_nil.
    intros [->|[->|[->|[]]]]; congruence.
Qed.

End NetworkingStatusFacts.

(** * Further properties *)

(** ** BMCForm: every way a submission can end *)

Section SubmitOutcomes.
Import BMCForm.
Context {YamlDoc : Type}.
Variable yaml_load : string → Js.completion YamlDoc.
Variable onCreate :
  AddBmcValues → option (NMStateConfig YamlDoc) → Js.completion unit.
Variable onClose : unit → Js.completion unit.
Variable hasDHCP : bool.
Variable infraEnv : InfraEnvK8sResource.

Local Abbreviation St := (State YamlDoc).

(** The value a submission fails with, if it fails: what building the
    network configuration throws, else what [onCreate] rejects with, else
    what [onClose] throws. *)
Definition submission_failure (values : AddBmcValues) : option Js.Thrown :=
  match nmStateArgument yaml_load hasDHCP infraEnv values with
  | Js.Throw e => Some e
  | Js.Normal nm =>
      match onCreate values nm with
      | Js.Throw e => Some e
      | Js.Normal _ =>
          match onClose tt with
          | Js.Throw e => Some e
          | Js.Normal _ => None
          end
      end
  end.

Lemma submit_outcome (values : AddBmcValues) (s : St) :
  ∃ cs,
    handleSubmit yaml_load onCreate onClose hasDHCP infraEnv values s
    = match submission_failure values with
      | None => (Js.Normal tt, {| error := None; calls := cs |})
      | Some e => caught e {| error := None; calls := cs |}
      end.
Proof.
  unfold submission_failure.
  destruct (nmStateArgument yaml_load hasDHCP infraEnv values) as [nm|e] eqn:Harg.
  - destruct (onCreate values nm) as [[]|e] eqn:Hcreate.
    + rewrite (submit_resolved _ _ _ _ _ values s nm Harg Hcreate).
      destruct (onClose tt); by eexists.
    + rewrite (submit_rejected _ _ _ _ _ values s nm e Harg Hcreate).
      by eexists.
  - rewrite (submit_parse_error _ _ _ _ _ values s e Harg). by eexists.
Qed.

(** X1. The promise of [handleSubmit] rejects in one case only: when the
    submission fails with [undefined] or [null], reading [e.message] in
    the [catch] block throws a [TypeError] and the handler rejects with
    it. When nothing fails, and for every failure with another value, the
    handler completes normally. *)
Theorem handleSubmit_rejects_iff (values : AddBmcValues) (s : St) :
  fst (handleSubmit yaml_load onCreate onClose hasDHCP infraEnv values s)
  = match submission_failure values with
    | Some Js.Undefined => Js.Throw (Js.cannot_read "message" "undefined")
    | Some Js.Null => Js.Throw (Js.cannot_read "message" "null")
    | Some (Js.Other _) | Some (Js.ErrorObject _) | None => Js.Normal tt
    end.
Proof.
  destruct (submit_outcome values s) as [cs ->].
  by destruct (submission_failure values) as [[| | |]|].
Qed.

(** X2. A submission only adds to the calls made before it, and what it
    adds is nothing, one [onCreate], or one [onCreate] followed by one
    [onClose]: [onClose] is called exactly when [onCreate] was called and
    resolved, and never before it or without it. *)
Theorem handleSubmit_call_order (values : AddBmcValues) (s : St) :
  let run := handleSubmit yaml_load onCreate onClose hasDHCP infraEnv values in
  calls (Eff.exec run s) = calls s ++ new_calls run s
  ∧ (new_calls run s = []
     ∨ ∃ nm, new_calls run s = [OnCreate values nm]
             ∨ new_calls run s = [OnCreate values nm; OnClose])
  ∧ (OnClose ∈ new_calls run s
     ↔ ∃ nm, nmStateArgument yaml_load hasDHCP infraEnv values = Js.Normal nm
             ∧ onCreate values nm = Js.Normal tt).
Proof.
  intros run. subst run. rewrite submit_new_calls.
  split; [apply submit_calls|].
  destruct (nmStateArgument yaml_load hasDHCP infraEnv values) as [nm|e] eqn:Harg.
  - destruct (onCreate values nm) as [[]|e] eqn:Hcreate; simpl.
    + split; [right; exists nm; by right|].
      split; [intros _; by exists nm|].
      intros _. rewrite !elem_of_cons. tauto.
    + split; [right; exists nm; by left|].
      split.
      * rewrite elem_of_cons, elem_of_nil. by intros [[=]|[]].
      * intros (nm' & [= <-] & Hok). congruence.
  - simpl. split; [by left|].
    split; [by intros []%elem_of_nil|].
    by intros (nm & [=] & _).
Qed.

(** X3. After a submission the [error] cell holds the message of the
    failure when the value it failed with carries one, and is empty
    otherwise: after a success, and also after a failure with a value
    that has no message or is [undefined] or [null]. An error left by an
    earlier submission never survives: the cell does not depend on what
    it held before. *)
Theorem handleSubmit_error_state (values : AddBmcValues) (s s' : St) :
  let run := handleSubmit yaml_load onCreate onClose hasDHCP infraEnv values in
  error (Eff.exec run s)
  = match submission_failure values with
    | Some (Js.ErrorObject e) => Some (Js.message e)
    | Some Js.Undefined | Some Js.Null | Some (Js.Other _) | None => None
    end
  ∧ error (Eff.exec run s) = error (Eff.exec run s').
Proof.
  intros run. subst run.
  assert (∀ s0 : St,
            error (Eff.exec
                     (handleSubmit yaml_load onCreate onClose hasDHCP infraEnv values) s0)
            = match submission_failure values with
              | Some (Js.ErrorObject e) => Some (Js.message e)
              | _ => None
              end) as Herror.
  { intros s0. unfold Eff.exec.
    destruct (submit_outcome values s0) as [cs ->].
    by destruct (submission_failure values) as [[| | |]|]. }
  rewrite !Herror. split; [|done].
  by destruct (submission_failure values) as [[| | |]|].
Qed.

(** X4. With DHCP the network configuration plays no role: [onCreate]
    gets [undefined] as its second argument, and neither [yaml.load] nor
    the InfraEnv influence the submission. *)
Theorem handleSubmit_with_DHCP
    (yaml_load' : string → Js.completion YamlDoc) (infraEnv' : InfraEnvK8sResource)
    (values : AddBmcValues) (s : St) :
  handleSubmit yaml_load onCreate onClose true infraEnv values s
  = handleSubmit yaml_load' onCreate onClose true infraEnv' values s
  ∧ head (new_calls (handleSubmit yaml_load onCreate onClose true infraEnv values) s)
    = Some (OnCreate values None).
Proof.
  split; [reflexivity|].
  rewrite submit_new_calls. simpl.
  by destruct (onCreate values None).
Qed.

(** X5. Without DHCP, when the document parses, the object built by
    [getNMState] is what [onCreate] receives, together with the values. *)
Theorem handleSubmit_passes_nmState
    (values : AddBmcValues) (s : St) (nm : NMStateConfig YamlDoc) :
  getNMState yaml_load values infraEnv = Js.Normal nm →
  head (new_calls (handleSubmit yaml_load onCreate onClose false infraEnv values) s)
  = Some (OnCreate values (Some nm)).
Proof.
  intros Hnm. rewrite submit_new_calls.
  unfold nmStateArgument. rewrite Hnm.
  by destruct (onCreate values (Some nm)).
Qed.

End SubmitOutcomes.

(** [onCreate] rejecting with a given value. *)
Definition create_rejects_with (e : Js.Thrown) (_ : BMCForm.AddBmcValues)
    (_ : option (BMCForm.NMStateConfig string)) : Js.completion unit :=
  Js.Throw e.

Lemma handleSubmit_rejects_iff_witness :
  fst (BMCForm.handleSubmit sample_yaml_load (create_rejects_with Js.Undefined)
         close_returns false sample_infraEnv (submitted_values "interfaces: []")
         sample_state)
  = Js.Throw
      (Js.ErrorObject
         {| Js.name := "TypeError";
            Js.message := "Cannot read properties of undefined (reading 'message')" |})
  ∧ fst (BMCForm.handleSubmit sample_yaml_load
           (create_rejects_with (Js.Other "Conflict"))
           close_returns false sample_infraEnv (submitted_values "interfaces: []")
           sample_state)
    = Js.Normal tt.
Proof.
  split.
  - apply (handleSubmit_rejects_iff sample_yaml_load (create_rejects_with Js.Undefined)
             close_returns false sample_infraEnv
             (submitted_values "interfaces: []") sample_state).
  - apply (handleSubmit_rejects_iff sample_yaml_load
             (create_rejects_with (Js.Other "Conflict"))
             close_returns false sample_infraEnv
             (submitted_values "interfaces: []") sample_state).
Defined.

Lemma handleSubmit_error_state_witness :
  let failed := {| BMCForm.error := Some "host-1 already exists";
                   BMCForm.calls := [] |} in
  BMCForm.error
    (Eff.exec (BMCForm.handleSubmit sample_yaml_load
                 (create_rejects_with (Js.Other "Conflict"))
                 close_returns false sample_infraEnv
                 (submitted_values "interfaces: []")) failed)
  = None
  ∧ BMCForm.error
      (Eff.exec (BMCForm.handleSubmit sample_yaml_load create_fails
                   close_returns false sample_infraEnv
                   (submitted_values "interfaces: []")) sample_state)
    = Some "host-1 already exists".
Proof.
  intros failed. split.
  - apply (proj1 (handleSubmit_error_state sample_yaml_load
                    (create_rejects_with (Js.Other "Conflict"))
                    close_returns false sample_infraEnv
                    (submitted_values "interfaces: []") failed failed)).
  - apply (proj1 (handleSubmit_error_state sample_yaml_load create_fails
                    close_returns false sample_infraEnv
                    (submitted_values "interfaces: []") sample_state sample_state)).
Defined.

Lemma handleSubmit_passes_nmState_witness :
  ∃ nm,
    BMCForm.getNMState sample_yaml_load (sample_values "interfaces: []") sample_infraEnv
    = Js.Normal nm
    ∧ head (BMCForm.new_calls
              (BMCForm.handleSubmit sample_yaml_load create_fails close_returns false
                 sample_infraEnv (sample_values "interfaces: []")) sample_state)
      = Some (BMCForm.OnCreate (sample_values "interfaces: []") (Some nm)).
Proof.
  eexists. split; [reflexivity|].
  apply (handleSubmit_passes_nmState sample_yaml_load create_fails close_returns
           sample_infraEnv (sample_values "interfaces: []") sample_state _ eq_refl).
Defined.

(** ** BMCForm: more about [getNMState] *)

Section NMStateMore.
Import BMCForm.
Context {YamlDoc : Type}.
Variable yaml_load : string → Js.completion YamlDoc.

(** X6. [getNMState] throws exactly when [yaml.load] throws on
    [values.nmState], and then it throws the same error; nothing else in
    it can fail, whatever the InfraEnv and the mapping are. *)
Theorem getNMState_throws_iff
    (values : AddBmcValues) (infraEnv : InfraEnvK8sResource) (e : Js.Thrown) :
  getNMState yaml_load values infraEnv = Js.Throw e
  ↔ yaml_load (nmState values) = Js.Throw e.
Proof.
  unfold getNMState. destruct (yaml_load (nmState values)); split; congruence.
Qed.

(** X7. For an InfraEnv without a name (no [metadata], or [metadata]
    without [name]) the template literal prints [undefined]: the object
    gets the [generateName] ["undefined-"] and no [infraEnv] label. *)
Theorem getNMState_without_name
    (values : AddBmcValues) (infraEnv : InfraEnvK8sResource)
    (nm : NMStateConfig YamlDoc) :
  (infraEnv_metadata infraEnv = None
   ∨ ∃ m, infraEnv_metadata infraEnv = Some m ∧ K8s.name m = None) →
  getNMState yaml_load values infraEnv = Js.Normal nm →
  generateName (metadata nm) = "undefined-"
  ∧ labels_infraEnv (labels (metadata nm)) = None.
Proof.
  intros Hmeta Hnm.
  assert (infraEnv_name infraEnv = None) as Hname.
  { unfold infraEnv_name. destruct Hmeta as [->|(m & -> & Hm)]; done. }
  split; [by apply (getNMState_unnamed yaml_load values infraEnv)|].
  revert Hnm. unfold getNMState. destruct (yaml_load _); [|discriminate].
  intros [= <-]. done.
Qed.

Lemma filter_all {A} (P : A → Prop) `{!∀ x, Decision (P x)} (l : list A) :
  filter P l = l ↔ Forall P l.
Proof.
  induction l as [|x l IH]; [by split|].
  destruct (decide (P x)) as [Hx|Hx].
  - rewrite filter_cons_True by done. rewrite Forall_cons. split.
    + intros [= Hl]. split; [done|]. by apply IH.
    + intros [_ Hl]. f_equal. by apply IH.
  - rewrite filter_cons_False by done. rewrite Forall_cons. split.
    + intros Hl. exfalso.
      pose proof (length_filter P l) as Hlen.
      rewrite Hl in Hlen. simpl in Hlen. lia.
    + intros [Hx' _]. done.
Qed.

(** X8. [spec.interfaces] is all of [values.macMapping] exactly when every
    entry has a MAC address and a name, which is what the validation
    schema requires of a submitted form: then no entry is dropped. *)
Theorem getNMState_keeps_filled_mapping
    (values : AddBmcValues) (infraEnv : InfraEnvK8sResource)
    (nm : NMStateConfig YamlDoc) :
  getNMState yaml_load values infraEnv = Js.Normal nm →
  (interfaces (spec nm) = macMapping values
   ↔ Forall (λ m, macAddress m ≠ "" ∧ name m ≠ "") (macMapping values)).
Proof.
  unfold getNMState. destruct (yaml_load _); [|discriminate].
  intros [= <-]. simpl. rewrite mapping_filter.
  apply (filter_all both_non_empty).
Qed.

End NMStateMore.

Lemma getNMState_without_name_witness :
  let lost := {| BMCForm.infraEnv_metadata := None |} in
  ∃ nm,
    BMCForm.getNMState sample_yaml_load (sample_values "interfaces: []") lost
    = Js.Normal nm
    ∧ BMCForm.generateName (BMCForm.metadata nm) = "undefined-"
    ∧ BMCForm.labels_infraEnv (BMCForm.labels (BMCForm.metadata nm)) = None.
Proof.
  intros lost. eexists. split; [reflexivity|].
  apply (getNMState_without_name sample_yaml_load
           (sample_values "interfaces: []") lost _ (or_introl eq_refl) eq_refl).
Defined.

Definition filled_values : BMCForm.AddBmcValues :=
  MacMapping.with_mapping (sample_values "interfaces: []")
    [ {| BMCForm.macAddress := "02:00:00:80:12:14"; BMCForm.name := "eth0" |};
      {| BMCForm.macAddress := "02:00:00:80:12:16"; BMCForm.name := "eth1" |} ].

Lemma getNMState_keeps_filled_mapping_witness :
  ∃ nm,
    BMCForm.getNMState sample_yaml_load filled_values sample_infraEnv = Js.Normal nm
    ∧ BMCForm.interfaces (BMCForm.spec nm) = BMCForm.macMapping filled_values.
Proof.
  eexists. split; [reflexivity|].
  apply (getNMState_keeps_filled_mapping sample_yaml_load filled_values
           sample_infraEnv _ eq_refl).
  repeat constructor; discriminate.
Defined.

(** ** BMCForm: the MAC-to-interface grid *)

Section MacMappingFacts.
Import BMCForm MacMapping.

Local Abbreviation Mapping := (list MacMappingEntry).

(** The event types into an input of the first row. *)
Definition types_into_first (ev : Event) : Prop :=
  match ev with
  | TypeMacAddress 0 _ | TypeName 0 _ => True
  | _ => False
  end.

Lemma grid_row (value : Mapping) (row : nat) :
  removeIcon <$> (rows (grid value) !! row)
  = (λ _, if bool_decide (row ≠ 0) then Some row else None) <$> (value !! row).
Proof.
  unfold grid. simpl. rewrite list_lookup_imap.
  by destruct (value !! row).
Qed.

Lemma click_remove (value : Mapping) (row : nat) :
  handle value (ClickRemove row)
  = if bool_decide (row ≠ 0) then delete row value else value.
Proof.
  unfold handle. pose proof (grid_row value row) as Hrow.
  destruct (rows (grid value) !! row) as [r|] eqn:Hr;
    destruct (value !! row) as [m|] eqn:Hm; simpl in Hrow; try done.
  - injection Hrow as ->. by case_bool_decide.
  - case_bool_decide; [|done].
    unfold remove. apply lookup_ge_None in Hm.
    rewrite delete_take_drop, take_ge, drop_ge by lia.
    by rewrite app_nil_r.
Qed.

Lemma handle_nonempty (value : Mapping) (ev : Event) :
  value ≠ [] → handle value ev ≠ [].
Proof.
  intros Hne. destruct ev as [row| |row text|row text].
  - rewrite click_remove. case_bool_decide; [|done].
    destruct value as [|m value]; [done|].
    destruct row as [|row]; [done|]. done.
  - unfold handle, push. by destruct value.
  - simpl. intros Hnil%(f_equal length).
    rewrite length_alter in Hnil. by destruct value.
  - simpl. intros Hnil%(f_equal length).
    rewrite length_alter in Hnil. by destruct value.
Qed.

Lemma handle_head (value : Mapping) (ev : Event) :
  value ≠ [] → ¬ types_into_first ev → head (handle value ev) = head value.
Proof.
  intros Hne Hev. destruct value as [|m value]; [done|].
  destruct ev as [row| |row text|row text].
  - rewrite click_remove. case_bool_decide; [|done].
    destruct row as [|row]; done.
  - done.
  - destruct row as [|row]; [by destruct Hev|done].
  - destruct row as [|row]; [by destruct Hev|done].
Qed.

(** X9. The mapping never becomes empty: from a mapping with at least one
    entry (the form starts with one), no sequence of clicks and edits in
    the grid leads to an empty mapping, because the first row has no
    remove icon. *)
Theorem macMapping_never_empty (value : Mapping) (evs : list Event) :
  value ≠ [] → fold_left handle evs value ≠ [].
Proof.
  revert value. induction evs as [|ev evs IH]; intros value Hne; [done|].
  simpl. by apply IH, handle_nonempty.
Qed.

(** X10. The first entry can be edited but not removed or displaced: after
    any sequence of events none of which types into the first row, the
    first entry is the one there was. *)
Theorem macMapping_first_row_stays (value : Mapping) (evs : list Event) :
  value ≠ [] →
  Forall (λ ev, ¬ types_into_first ev) evs →
  head (fold_left handle evs value) = head value.
Proof.
  revert value. induction evs as [|ev evs IH]; intros value Hne Hevs; [done|].
  apply Forall_cons in Hevs as [Hev Hevs]. simpl.
  rewrite IH; [by apply handle_head|by apply handle_nonempty|done].
Qed.

(** X11. A click on the remove icon of row [row] deletes the entry at that
    position and no other: the entries before it keep their place and the
    ones after it move up by one. *)
Theorem macMapping_remove_row (value : Mapping) (row : nat) :
  0 < row < length value →
  length (handle value (ClickRemove row)) = length value - 1
  ∧ (∀ i, i < row → handle value (ClickRemove row) !! i = value !! i)
  ∧ (∀ i, row ≤ i → handle value (ClickRemove row) !! i = value !! S i).
Proof.
  intros [Hpos Hlt]. rewrite click_remove.
  rewrite bool_decide_eq_true_2 by lia. split_and!.
  - rewrite length_delete; [done|]. by apply lookup_lt_is_Some_2.
  - intros i Hi. by apply list_lookup_delete_lt.
  - intros i Hi. by apply list_lookup_delete_ge.
Qed.

Lemma js_filter_app {A} (p : A → nat) (l k : list A) :
  Js.filter p (l ++ k) = Js.filter p l ++ Js.filter p k.
Proof.
  induction l as [|x l IH]; [done|]. simpl.
  destruct (Js.truthy_number (p x)); by rewrite IH.
Qed.

(** X12. "Add more" alone changes nothing of what is submitted as network
    configuration: the blank entry it appends is dropped by [getNMState],
    which returns the very same result as before the click. *)
Theorem add_more_keeps_nmState {YamlDoc : Type}
    (yaml_load : string → Js.completion YamlDoc)
    (values : AddBmcValues) (infraEnv : InfraEnvK8sResource) (value : Mapping) :
  getNMState yaml_load (with_mapping values (handle value ClickAddMore)) infraEnv
  = getNMState yaml_load (with_mapping values value) infraEnv.
Proof.
  unfold getNMState, with_mapping, handle, push. simpl.
  destruct (yaml_load (nmState values)); [|done].
  by rewrite js_filter_app, app_nil_r.
Qed.

Lemma append_length (s t : string) :
  String.length (s +:+ t) = String.length s + String.length t.
Proof. induction s as [|c s IH]; simpl; [done|by rewrite IH]. Qed.

Lemma append_cancel_r (s1 s2 t : string) : s1 +:+ t = s2 +:+ t → s1 = s2.
Proof.
  revert s2. induction s1 as [|c s1 IH]; intros [|d s2] Heq.
  - done.
  - apply (f_equal String.length) in Heq.
    rewrite !append_length in Heq. simpl in Heq. exfalso. lia.
  - apply (f_equal String.length) in Heq.
    rewrite !append_length in Heq. simpl in Heq. exfalso. lia.
  - injection Heq as -> Heq. f_equal. by apply IH.
Qed.

(** The last character of a string. *)
Fixpoint last_char (s : string) : option Ascii.ascii :=
  match s with
  | EmptyString => None
  | String c EmptyString => Some c
  | String _ s' => last_char s'
  end.

Lemma last_char_append (s t : string) :
  t ≠ "" → last_char (s +:+ t) = last_char t.
Proof.
  intros Ht. induction s as [|c s IH]; [done|].
  simpl. rewrite IH. destruct (s +:+ t) eqn:Hst; [|done].
  destruct s; [done|discriminate].
Qed.

(** X13. Every input of the grid has a field name of its own: the names
    of two rows differ, for the MAC address inputs and for the NIC inputs,
    and no MAC address input shares its name with a NIC input. *)
Theorem macMapping_field_names (value : Mapping) (i j : nat) (r r' : Row) :
  rows (grid value) !! i = Some r →
  rows (grid value) !! j = Some r' →
  (macAddressField r = macAddressField r' → i = j)
  ∧ (nameField r = nameField r' → i = j)
  ∧ macAddressField r ≠ nameField r'.
Proof.
  unfold grid. simpl. rewrite !list_lookup_imap.
  destruct (value !! i); [|done]. destruct (value !! j); [|done].
  simpl. intros [= <-] [= <-]. simpl. split_and!.
  - intros [= Heq]. apply (inj pretty).
    apply (append_cancel_r _ _ "].macAddress"). exact Heq.
  - intros [= Heq]. apply (inj pretty).
    apply (append_cancel_r _ _ "].name"). exact Heq.
  - intros [= Heq].
    assert (last_char (pretty i +:+ "].macAddress")
            = last_char (pretty j +:+ "].name")) as Hlast
      by exact (f_equal last_char Heq).
    rewrite !last_char_append in Hlast by done. discriminate Hlast.
Qed.

End MacMappingFacts.

Lemma macMapping_never_empty_witness :
  let evs := [MacMapping.ClickRemove 0; MacMapping.ClickAddMore;
              MacMapping.ClickRemove 1; MacMapping.ClickRemove 0] in
  BMCForm.macMapping BMCForm.emptyValues ≠ []
  ∧ fold_left MacMapping.handle evs (BMCForm.macMapping BMCForm.emptyValues) ≠ [].
Proof.
  intros evs. split; [done|]. by apply macMapping_never_empty.
Defined.

Lemma macMapping_first_row_stays_witness :
  let evs := [MacMapping.ClickAddMore; MacMapping.TypeName 1 "eth7";
              MacMapping.ClickRemove 0; MacMapping.ClickRemove 1] in
  head (fold_left MacMapping.handle evs sample_mapping)
  = Some {| BMCForm.macAddress := "02:00:00:80:12:14"; BMCForm.name := "eth0" |}.
Proof.
  intros evs.
  apply (macMapping_first_row_stays sample_mapping evs); [done|].
  repeat constructor; simpl; tauto.
Defined.

Lemma macMapping_remove_row_witness :
  0 < 2 < length sample_mapping
  ∧ length (MacMapping.handle sample_mapping (MacMapping.ClickRemove 2)) = 5 - 1.
Proof.
  assert (0 < 2 < length sample_mapping) as Hrow by (simpl; lia).
  split; [exact Hrow|].
  apply (proj1 (macMapping_remove_row sample_mapping 2 Hrow)).
Defined.

Lemma macMapping_field_names_witness :
  ∃ r r',
    MacMapping.rows (MacMapping.grid sample_mapping) !! 1 = Some r
    ∧ MacMapping.rows (MacMapping.grid sample_mapping) !! 3 = Some r'
    ∧ MacMapping.macAddressField r = "macMapping[1].macAddress"
    ∧ MacMapping.nameField r' = "macMapping[3].name"
    ∧ MacMapping.macAddressField r ≠ MacMapping.nameField r'.
Proof.
  eexists _, _. split; [reflexivity|]. split; [reflexivity|].
  split; [reflexivity|]. split; [reflexivity|].
  apply (macMapping_field_names sample_mapping 1 3 _ _ eq_refl eq_refl).
Defined.

(** ** ClusterDeploymentDetailsStep: what Next does *)

Section DetailsStepMore.
Import DetailsStep.
Context {Values : Type}.
Variable onSaveDetails : Values → Js.completion unit.
Variable validate : Values → bool.

Local Abbreviation St := (State Values).

Definition isOnSaveDetails (c : Call Values) : bool :=
  match c with OnSaveDetails _ => true | _ => false end.

Definition isAddAlert (c : Call Values) : bool :=
  match c with AddAlert _ => true | _ => false end.

Definition isSetCurrentStepId (c : Call Values) : bool :=
  match c with SetCurrentStepId _ => true | _ => false end.

Lemma handleOnNext_run (dirty : bool) (values : Values) (s : St) :
  handleOnNext onSaveDetails validate dirty values s
  = (Js.Normal tt,
     if dirty
     then if validate values
          then snd (handleSubmit onSaveDetails values s)
          else s
     else {| currentStepId := "hosts-selection";
             calls := calls s ++ [SetCurrentStepId "hosts-selection"] |}).
Proof.
  unfold handleOnNext, submitForm. destruct dirty; [|apply next_run].
  destruct (validate values); [|done].
  by rewrite handleSubmit_run.
Qed.

(** X14. Neither handler of the step ever throws: a rejected
    [onSaveDetails] is always turned into an alert, so [handleSubmit] and
    [handleOnNext] complete normally for every form state. *)
Theorem details_step_never_rejects (dirty : bool) (values : Values) (s : St) :
  fst (handleSubmit onSaveDetails values s) = Js.Normal tt
  ∧ fst (handleOnNext onSaveDetails validate dirty values s) = Js.Normal tt.
Proof. by rewrite handleSubmit_run, handleOnNext_run. Qed.

(** X15. Next saves only a form that is dirty and valid: [onSaveDetails]
    is called once when the form is dirty and passes validation, and not
    at all otherwise. On an unmodified form Next only moves to the next
    step; on a dirty form that fails validation it does nothing. *)
Theorem handleOnNext_saves_when_dirty (dirty : bool) (values : Values) (s : St) :
  let onNext := handleOnNext onSaveDetails validate dirty values in
  length (List.filter isOnSaveDetails (new_calls onNext s))
  = (if dirty && validate values then 1 else 0)
  ∧ (dirty = false → new_calls onNext s = [SetCurrentStepId "hosts-selection"])
  ∧ (dirty = true → validate values = false → Eff.exec onNext s = s).
Proof.
  intros onNext. subst onNext. split_and!.
  - rewrite handleOnNext_new_calls. destruct dirty; [|done].
    destruct (validate values); [|done].
    rewrite handleSubmit_new_calls. by destruct (onSaveDetails values).
  - intros ->. by rewrite handleOnNext_new_calls.
  - intros -> Hinvalid. unfold Eff.exec.
    rewrite handleOnNext_run, Hinvalid. done.
Qed.

(** X16. A submission of the details ends in exactly one of two ways: it
    calls [onSaveDetails] once and then either moves to the next step or
    adds one alert, never both and never neither; the alert carries the
    rejection reason as its message. *)
Theorem handleSubmit_step_or_alert (values : Values) (s : St) :
  let submit := handleSubmit onSaveDetails values in
  head (new_calls submit s) = Some (OnSaveDetails values)
  ∧ length (new_calls submit s) = 2
  ∧ length (List.filter isSetCurrentStepId (new_calls submit s))
    + length (List.filter isAddAlert (new_calls submit s)) = 1
  ∧ (∀ alert, AddAlert alert ∈ new_calls submit s →
              onSaveDetails values = Js.Throw (message alert)
              ∧ title alert = "Failed to save ClusterDeployment").
Proof.
  intros submit. subst submit. rewrite handleSubmit_new_calls.
  destruct (onSaveDetails values) as [[]|error]; split_and!; try done.
  - intros alert. rewrite !elem_of_cons, elem_of_nil.
    by intros [[=]|[[=]|[]]].
  - intros alert. rewrite !elem_of_cons, elem_of_nil.
    by intros [[=]|[[= ->]|[]]].
Qed.

End DetailsStepMore.

Lemma handleOnNext_saves_when_dirty_witness :
  let s := {| DetailsStep.currentStepId := "cluster-details"; DetailsStep.calls := [] |} in
  DetailsStep.new_calls
    (DetailsStep.handleOnNext save_fails (λ _, true) false "cluster-1") s
  = [DetailsStep.SetCurrentStepId "hosts-selection"]
  ∧ Eff.exec (DetailsStep.handleOnNext save_fails (λ _, false) true "cluster-1") s = s.
Proof.
  intros s.
  destruct (handleOnNext_saves_when_dirty save_fails (λ _, true) false "cluster-1" s)
    as (_ & Hclean & _).
  destruct (handleOnNext_saves_when_dirty save_fails (λ _, false) true "cluster-1" s)
    as (_ & _ & Hinvalid).
  split; [by apply Hclean|by apply Hinvalid].
Defined.

(** ** NetworkingStatus: what reaches HostStatus *)

Section NetworkingStatusMore.
Import NetworkingStatus.
Context {Cluster Host Validations Callback : Type}.

Local Abbreviation Value := (PropValue Cluster Host Validations Callback).

(** X17. [NetworkingStatus] forwards every prop it does not set itself:
    a prop other than [cluster] and the four it sets reaches [HostStatus]
    unchanged (present or absent), [cluster] is never forwarded as a prop,
    and the NTP dialog toggle is bound to the cluster that was passed in. *)
Theorem networking_status_forwards (allProps : gmap string Value) :
  (∀ k, k ∉ ["cluster"; "statusOverride"; "validationsInfo"; "sublabel";
             "AdditionalNTPSourcesDialogToggleComponent"] →
        props (NetworkingStatus allProps) !! k = allProps !! k)
  ∧ props (NetworkingStatus allProps) !! "cluster" = None
  ∧ props (NetworkingStatus allProps) !! "AdditionalNTPSourcesDialogToggleComponent"
    = Some (VAdditionalNTPSourcesDialogToggle (get "cluster" allProps)).
Proof.
  unfold NetworkingStatus. simpl. split_and!.
  - intros k Hk.
    rewrite !not_elem_of_cons in Hk.
    destruct Hk as (Hc & Hs & Hv & Hsub & Hntp & _).
    rewrite !lookup_insert_ne by done. by rewrite lookup_delete_ne.
  - rewrite !lookup_insert_ne by done. apply lookup_delete_eq.
  - apply lookup_insert_eq.
Qed.

End NetworkingStatusMore.

(** ** Agent locations: what the reader looks at *)

Section LocationsMore.
Import Locations.
Variable AGENT_LOCATION_LABEL_KEY : string.

(** The expression with another operator. *)
Definition with_operator (op : MatchExpression → string) (e : MatchExpression)
    : MatchExpression :=
  {| key := key e; operator := op e; values := values e |}.

Lemma find_with_operator (op : MatchExpression → string) (es : list MatchExpression) :
  Js.find (λ expr, Js.strict_eq (key expr) AGENT_LOCATION_LABEL_KEY)
    (with_operator op <$> es)
  = with_operator op
      <$> Js.find (λ expr, Js.strict_eq (key expr) AGENT_LOCATION_LABEL_KEY) es.
Proof.
  induction es as [|e es IH]; [done|]. simpl.
  by destruct (Js.strict_eq (key e) AGENT_LOCATION_LABEL_KEY).
Qed.

(** X20. The reader does not look at operators: the locations read from
    a list of expressions stay the same when the operators are replaced by
    any others, so the values of a [NotIn] expression on the location key
    are returned like those of an [In] expression. *)
Theorem locations_ignore_operator
    (op : MatchExpression → string) (es : list MatchExpression) :
  getLocationsFromMatchExpressions AGENT_LOCATION_LABEL_KEY
    (Some (with_operator op <$> es))
  = getLocationsFromMatchExpressions AGENT_LOCATION_LABEL_KEY (Some es).
Proof.
  unfold getLocationsFromMatchExpressions. rewrite find_with_operator.
  by destruct (Js.find _ es).
Qed.

Lemma read_built (ls : list string) :
  getLocationsFromMatchExpressions AGENT_LOCATION_LABEL_KEY
    (getAgentLocationMatchExpression AGENT_LOCATION_LABEL_KEY (Some ls))
  = ls.
Proof.
  destruct ls as [|l ls]; [done|].
  unfold getAgentLocationMatchExpression, getLocationsFromMatchExpressions. simpl.
  unfold Js.strict_eq. by rewrite bool_decide_eq_true_2.
Qed.

(** X21. Reading, building and reading again gives what the first reading
    gave: for every list of expressions, given or omitted, the expression
    built from its locations carries exactly those locations. *)
Theorem locations_read_build_read (es : option (list MatchExpression)) :
  getLocationsFromMatchExpressions AGENT_LOCATION_LABEL_KEY
    (getAgentLocationMatchExpression AGENT_LOCATION_LABEL_KEY
       (Some (getLocationsFromMatchExpressions AGENT_LOCATION_LABEL_KEY es)))
  = getLocationsFromMatchExpressions AGENT_LOCATION_LABEL_KEY es.
Proof. apply read_built. Qed.

(** X22. What the builder returns, when it returns something, is a single
    [In] expression on the location key whose values are the given
    locations, and these are not empty: it never builds an empty list of
    expressions nor an expression without values. *)
Theorem location_expression_shape
    (locations : option (list string)) (es : list MatchExpression) :
  getAgentLocationMatchExpression AGENT_LOCATION_LABEL_KEY locations = Some es →
  ∃ ls, locations = Some ls ∧ ls ≠ []
        ∧ es = [ {| key := AGENT_LOCATION_LABEL_KEY; operator := "In";
                    values := Some ls |} ].
Proof.
  unfold getAgentLocationMatchExpression.
  destruct locations as [[|l ls]|]; simpl; [done| |done].
  intros [= <-]. by exists (l :: ls).
Qed.

End LocationsMore.

Lemma location_expression_shape_witness :
  ∃ ls, Some ["brno"] = Some ls ∧ ls ≠ []
        ∧ [ {| Locations.key := location_label_key; Locations.operator := "In";
               Locations.values := Some ["brno"] |} ]
          = [ {| Locations.key := location_label_key; Locations.operator := "In";
                 Locations.values := Some ls |} ].
Proof.
  apply (location_expression_shape location_label_key (Some ["brno"]) _ eq_refl).
Defined.

(** ** Condition lookup: conditions added later *)

Section ConditionsMore.
Import Conditions.
Context {StatusCondition : Type} (type : StatusCondition → string).

Lemma find_app_Some {A} (p : A → bool) (l k : list A) (x : A) :
  Js.find p l = Some x → Js.find p (l ++ k) = Some x.
Proof.
  induction l as [|a l IH]; [done|]. simpl. by destruct (p a).
Qed.

Lemma find_app_None {A} (p : A → bool) (l k : list A) :
  Js.find p l = None → Js.find p (l ++ k) = Js.find p k.
Proof.
  induction l as [|a l IH]; [done|]. simpl. by destruct (p a).
Qed.

(** X23. Conditions appended to [status.conditions] never change an
    answer already found: once a resource has a ['Validated'] condition,
    both helpers keep returning that same condition however many
    conditions are added after it; while none is found, the answer is the
    one found among the added conditions. *)
Theorem validated_condition_stable
    (meta : option K8s.ObjectMeta) (cs more : list StatusCondition) :
  let cluster l := {| aci_metadata := meta;
                      aci_status := Some {| conditions := Some l |} |} in
  let agent l := {| agent_metadata := meta;
                    agent_status := Some {| conditions := Some l |} |} in
  (∀ c, getClusterValidatedCondition type (cluster cs) = Some c →
        getClusterValidatedCondition type (cluster (cs ++ more)) = Some c)
  ∧ (∀ c, getAgentValidatedCondition type (agent cs) = Some c →
          getAgentValidatedCondition type (agent (cs ++ more)) = Some c)
  ∧ (getClusterValidatedCondition type (cluster cs) = None →
     getClusterValidatedCondition type (cluster (cs ++ more))
     = getClusterValidatedCondition type (cluster more))
  ∧ (getAgentValidatedCondition type (agent cs) = None →
     getAgentValidatedCondition type (agent (cs ++ more))
     = getAgentValidatedCondition type (agent more)).
Proof.
  intros cluster agent.
  unfold getClusterValidatedCondition, getAgentValidatedCondition. simpl.
  split_and!; first [intros c; apply find_app_Some | apply find_app_None].
Qed.

End ConditionsMore.

(** ** useDetailsFormik across renders *)

Section DetailsFormikFacts.
Import DetailsFormik.
Context {ClusterDeployment AgentClusterInstall Agent ClusterImageSet : Type}.
Context {Cluster OcpVersions ManagedDomain ClusterDetailsValues Lazy : Type}.

Local Abbreviation Args :=
  (UseDetailsFormikArgs ClusterDeployment AgentClusterInstall Agent ClusterImageSet).
Local Abbreviation AIArgs :=
  (AIClusterArgs ClusterDeployment AgentClusterInstall Agent).
Local Abbreviation IVArgs := (InitialValuesArgs Cluster OcpVersions ManagedDomain).
Local Abbreviation HookCells :=
  (Cells ClusterDeployment AgentClusterInstall Agent Cluster ClusterDetailsValues Lazy).

Variable getAICluster : AIArgs → Cluster.
Variable getOCPVersions : list ClusterImageSet → OcpVersions.
Variable getClusterDetailsInitialValues : IVArgs → ClusterDetailsValues.
Variable getClusterDetailsValidationSchema : list string → option Cluster → Lazy.
Variable same_cluster_deps :
  @ClusterDeps ClusterDeployment AgentClusterInstall Agent
  → @ClusterDeps ClusterDeployment AgentClusterInstall Agent → bool.
Variable same_schema_deps : @SchemaDeps Cluster → @SchemaDeps Cluster → bool.

Local Abbreviation hook :=
  (useDetailsFormik getAICluster getOCPVersions getClusterDetailsInitialValues
     getClusterDetailsValidationSchema same_cluster_deps same_schema_deps).
Local Abbreviation hook_renders :=
  (renders getAICluster getOCPVersions getClusterDetailsInitialValues
     getClusterDetailsValidationSchema same_cluster_deps same_schema_deps).

(** The initial values and the schema computed afresh from arguments. *)
Definition fresh_initialValues (args : Args) : ClusterDetailsValues :=
  getClusterDetailsInitialValues
    {| managedDomains := [];
       cluster := compute_cluster getAICluster args;
       pullSecret := defaultPullSecret args;
       ocpVersions := getOCPVersions (clusterImages args);
       baseDomain := defaultBaseDomain args |}.

Definition fresh_validationSchema (args : Args) : Lazy :=
  getClusterDetailsValidationSchema (usedClusterNames args)
    (compute_cluster getAICluster args).

Lemma hook_keeps_initialValues (args : Args) (cells : HookCells)
    (v : ClusterDetailsValues) :
  initialValues_cell cells = Some (tt, v) →
  fst (fst (hook args cells)) = v
  ∧ initialValues_cell (snd (hook args cells)) = Some (tt, v).
Proof.
  intros Hcell. unfold useDetailsFormik. rewrite Hcell.
  destruct (useMemo same_cluster_deps _ _ (cluster_cell cells)) as [cl c1].
  simpl.
  by destruct (useMemo same_schema_deps _ _ (validationSchema_cell cells)).
Qed.

Lemma hook_first_render (args : Args) :
  fst (fst (hook args mount)) = fresh_initialValues args
  ∧ initialValues_cell (snd (hook args mount)) = Some (tt, fresh_initialValues args).
Proof. done. Qed.

Lemma renders_keep_initialValues (argss : list Args) (cells : HookCells)
    (v : ClusterDetailsValues) :
  initialValues_cell cells = Some (tt, v) →
  Forall (λ result, fst result = v) (hook_renders argss cells).
Proof.
  revert cells. induction argss as [|args argss IH]; intros cells Hcell.
  - constructor.
  - destruct (hook_keeps_initialValues args cells v Hcell) as [Hv Hcell'].
    simpl. destruct (hook args cells) as [result cells'].
    constructor; [done|]. by apply IH.
Qed.

(** X24. The initial values are those of the first render for as long as
    the component is mounted: in every later render, whatever arguments
    it gets (a cluster deployment that arrives later, another pull secret,
    other images), [useDetailsFormik] returns the initial values computed
    from the arguments of the first render. *)
Theorem initialValues_fixed_at_mount (args : Args) (later : list Args) :
  Forall (λ result, fst result = fresh_initialValues args)
         (hook_renders (args :: later) mount).
Proof.
  destruct (hook_first_render args) as [Hv Hcell].
  simpl. destruct (hook args mount) as [result cells'].
  constructor; [done|]. by apply renders_keep_initialValues.
Qed.

(** The memo cells hold values that belong to their dependencies. *)
Definition cluster_of_deps
    (deps : @ClusterDeps ClusterDeployment AgentClusterInstall Agent) : option Cluster :=
  let '(aci, cd, ags, pss) := deps in
  match cd, aci with
  | Some cd, Some aci =>
      Some (getAICluster {| ai_clusterDeployment := cd;
                            ai_agentClusterInstall := aci;
                            ai_agents := ags;
                            ai_pullSecretSet := pss |})
  | _, _ => None
  end.

Definition cells_consistent (cells : HookCells) : Prop :=
  (∀ deps v, cluster_cell cells = Some (deps, v) → v = cluster_of_deps deps)
  ∧ (∀ names cl v, validationSchema_cell cells = Some ((names, cl), v) →
                   v = getClusterDetailsValidationSchema names cl).

Section SoundComparison.

(** Dependencies that React finds unchanged are equal (the same object,
    never mutated). *)
Hypothesis same_cluster_deps_sound :
  ∀ deps deps', same_cluster_deps deps deps' = true → deps = deps'.
Hypothesis same_schema_deps_sound :
  ∀ deps deps', same_schema_deps deps deps' = true → deps = deps'.

Lemma hook_schema (args : Args) (cells : HookCells) :
  cells_consistent cells →
  snd (fst (hook args cells)) = fresh_validationSchema args
  ∧ cells_consistent (snd (hook args cells)).
Proof.
  intros [Hcluster Hschema]. unfold useDetailsFormik.
  assert (∃ c1, useMemo same_cluster_deps (λ _, compute_cluster getAICluster args)
                  (agentClusterInstall args, clusterDeployment args, agents args,
                   pullSecretSet args) (cluster_cell cells)
                = (compute_cluster getAICluster args, c1)
                ∧ ∀ deps v, c1 = Some (deps, v) → v = cluster_of_deps deps)
    as (c1 & -> & Hc1).
  { unfold useMemo. destruct (cluster_cell cells) as [[deps v]|] eqn:Hcell.
    - destruct (same_cluster_deps deps _) eqn:Hsame.
      + apply same_cluster_deps_sound in Hsame. subst deps.
        pose proof (Hcluster _ _ eq_refl) as ->.
        eexists. split; [reflexivity|].
        intros deps v' [= <- <-]. reflexivity.
      + eexists. split; [reflexivity|]. by intros deps' v' [= <- <-].
    - eexists. split; [reflexivity|]. by intros deps' v' [= <- <-]. }
  destruct (useMemo (λ _ _ : unit, true) _ tt (initialValues_cell cells)) as [iv c2].
  assert (∃ c3, useMemo same_schema_deps
                  (λ _, getClusterDetailsValidationSchema (usedClusterNames args)
                          (compute_cluster getAICluster args))
                  (usedClusterNames args, compute_cluster getAICluster args)
                  (validationSchema_cell cells)
                = (fresh_validationSchema args, c3)
                ∧ ∀ names cl v, c3 = Some ((names, cl), v) →
                                v = getClusterDetailsValidationSchema names cl)
    as (c3 & -> & Hc3).
  { unfold useMemo.
    destruct (validationSchema_cell cells) as [[[names cl] v]|] eqn:Hcell.
    - destruct (same_schema_deps (names, cl) _) eqn:Hsame.
      + apply same_schema_deps_sound in Hsame. injection Hsame as -> ->.
        pose proof (Hschema _ _ _ eq_refl) as ->.
        eexists. split; [reflexivity|].
        intros names' cl' v' [= <- <- <-]. reflexivity.
      + eexists. split; [reflexivity|]. by intros names' cl' v' [= <- <- <-].
    - eexists. split; [reflexivity|]. by intros names' cl' v' [= <- <- <-]. }
  simpl. split; [done|]. split; done.
Qed.

(** X25. Memoising the schema does not make it stale: provided that
    dependencies found unchanged are indeed equal, every render returns
    the validation schema of its own arguments (the current cluster names
    and the current cluster), in contrast to the initial values. *)
Theorem validationSchema_follows_arguments (argss : list Args) :
  snd <$> hook_renders argss mount = fresh_validationSchema <$> argss.
Proof.
  assert (cells_consistent mount) as Hmount by (split; intros; discriminate).
  revert Hmount. generalize (mount : HookCells) as cells.
  induction argss as [|args argss IH]; intros cells Hcells; [done|].
  destruct (hook_schema args cells Hcells) as [Hresult Hcells'].
  simpl. destruct (hook args cells) as [result cells'].
  simpl in *. rewrite Hresult. f_equal. by apply IH.
Qed.

End SoundComparison.
End DetailsFormikFacts.

(** ** Two renders of the details step's hook *)

(** Stand-ins that show their arguments: a cluster is named after its
    cluster deployment and install, the initial values are the cluster
    and the pull secret they were computed from, the schema the names and
    the cluster it was built for. *)
Definition show_cluster (a : DetailsFormik.AIClusterArgs string string string) : string :=
  DetailsFormik.ai_clusterDeployment a +:+ "/" +:+ DetailsFormik.ai_agentClusterInstall a.

Definition show_initialValues
    (iv : DetailsFormik.InitialValuesArgs string (list string) string)
    : option string * option string :=
  (DetailsFormik.cluster iv, DetailsFormik.pullSecret iv).

Definition show_schema (names : list string) (cl : option string)
    : list string * option string :=
  (names, cl).

Definition same_deps {D : Type} `{EqDecision D} (deps deps' : D) : bool :=
  bool_decide (deps = deps').

Definition first_args : DetailsFormik.UseDetailsFormikArgs string string string string :=
  {| DetailsFormik.clusterImages := ["img-4.8"];
     DetailsFormik.usedClusterNames := [];
     DetailsFormik.pullSecretSet := None;
     DetailsFormik.defaultPullSecret := Some "secret";
     DetailsFormik.clusterDeployment := None;
     DetailsFormik.agentClusterInstall := None;
     DetailsFormik.agents := None;
     DetailsFormik.defaultBaseDomain := None |}.

Definition second_args : DetailsFormik.UseDetailsFormikArgs string string string string :=
  {| DetailsFormik.clusterImages := ["img-4.8"];
     DetailsFormik.usedClusterNames := ["c1"];
     DetailsFormik.pullSecretSet := Some true;
     DetailsFormik.defaultPullSecret := Some "secret";
     DetailsFormik.clusterDeployment := Some "cd";
     DetailsFormik.agentClusterInstall := Some "aci";
     DetailsFormik.agents := Some [];
     DetailsFormik.defaultBaseDomain := None |}.

Example two_renders :
  DetailsFormik.renders show_cluster id show_initialValues show_schema
    same_deps same_deps [first_args; second_args; second_args] DetailsFormik.mount
  = [ ((None, Some "secret"), ([], None));
      ((None, Some "secret"), (["c1"], Some "cd/aci"));
      ((None, Some "secret"), (["c1"], Some "cd/aci")) ].
Proof. reflexivity. Qed.

Lemma validationSchema_follows_arguments_witness :
  snd <$> DetailsFormik.renders show_cluster id show_initialValues show_schema
            same_deps same_deps [first_args; second_args] DetailsFormik.mount
  = [ ([], None); (["c1"], Some "cd/aci") ].
Proof.
  apply (validationSchema_follows_arguments show_cluster id show_initialValues
           show_schema same_deps same_deps
           (λ deps deps' H, bool_decide_eq_true_1 _ H)
           (λ deps deps' H, bool_decide_eq_true_1 _ H)
           [first_args; second_args]).
Defined.

(** ** BMCForm: failures without a message *)

Section SilentFailure.
Import BMCForm.
Context {YamlDoc : Type}.
Variable yaml_load : string → Js.completion YamlDoc.
Variable onCreate :
  AddBmcValues → option (NMStateConfig YamlDoc) → Js.completion unit.
Variable onClose : unit → Js.completion unit.
Variable hasDHCP : bool.
Variable infraEnv : InfraEnvK8sResource.

(** X26. A failure whose error has an empty message leaves no trace on
    the form: when [onCreate] rejects with such an error, [onClose] is not
    called and no alert is rendered, because the empty string stored in
    [error] is falsy. With a non-empty message the alert is rendered. *)
Theorem handleSubmit_empty_message
    (values : AddBmcValues) (s : State YamlDoc) nm (e : Js.Error) :
  let run := handleSubmit yaml_load onCreate onClose hasDHCP infraEnv values in
  nmStateArgument yaml_load hasDHCP infraEnv values = Js.Normal nm →
  onCreate values nm = Js.Throw (Js.ErrorObject e) →
  (OnClose ∉ new_calls run s)
  ∧ (errorAlert (error (Eff.exec run s)) = None ↔ Js.message e = "").
Proof.
  intros run Harg Hcreate. subst run.
  rewrite submit_new_calls, Harg, Hcreate.
  unfold Eff.exec.
  rewrite (submit_rejected yaml_load onCreate onClose hasDHCP infraEnv
             values s nm _ Harg Hcreate), caught_error_object.
  simpl. rewrite errorAlert_message. split.
  - rewrite elem_of_cons, elem_of_nil. by intros [[=]|[]].
  - by case_decide.
Qed.

End SilentFailure.

Definition create_fails_silently (_ : BMCForm.AddBmcValues)
    (_ : option (BMCForm.NMStateConfig string)) : Js.completion unit :=
  Js.Throw (Js.ErrorObject {| Js.name := "Error"; Js.message := "" |}).

Lemma handleSubmit_empty_message_witness :
  BMCForm.errorAlert
    (BMCForm.error
       (Eff.exec (BMCForm.handleSubmit sample_yaml_load create_fails_silently
                    close_returns false sample_infraEnv
                    (submitted_values "interfaces: []"))
          sample_state))
  = None.
Proof.
  apply (proj2 (handleSubmit_empty_message sample_yaml_load create_fails_silently
                  close_returns false sample_infraEnv
                  (submitted_values "interfaces: []")
                  sample_state _ {| Js.name := "Error"; Js.message := "" |}
                  eq_refl eq_refl)).
  reflexivity.
Defined.
